(** * AlamWeb-Server: the portfolio site's request handlers (MYWEB/app.py)

    A shallow embedding of [app.py]: the SQLite store with its two tables,
    the request-scoped connection kept in [g], the contact and chat handlers
    with their [try]/[except] blocks, and the URL map.  Python values are
    embedded as an inductive type with Python's truthiness, exceptions as an
    error monad over the state of the process.

    Text.  A Python [str] is embedded as a [string]; a character stands for
    the code point of the same number (0 to 255), and [isspace] and
    [lower_char] are Python's [str.isspace] and [str.lower] on that range.
    The keywords of the chat rules are ASCII.  The canned reply texts are
    written with the bytes they have in the source file.

    Store.  SQLite is embedded as far as the statements of [app.py] go:
    [CREATE TABLE IF NOT EXISTS], [INSERT] with an AUTOINCREMENT rowid, and
    a connection whose statements reach the file at [commit].  An INSERT
    fails when its table is missing or when AUTOINCREMENT has no rowid left
    (the largest is 2^63 - 1).  Requests are served one at a time; a database
    file that cannot be opened or written is not part of the model, nor is a
    text outside the character range above (one with a lone surrogate is
    refused by sqlite3). *)

From Stdlib Require Import Bool Arith ZArith NArith List Sorted Lia.
From Stdlib Require Import Strings.Ascii Strings.String.
From Stdlib Require Import Floats.PrimFloat.
Import ListNotations.

Set Warnings "-register-all".
Local Open Scope string_scope.
Local Open Scope list_scope.

(* ================================================================== *)
(** ** Python text primitives *)

Module Text.

Definition code (c : ascii) : N := N_of_ascii c.

(** [str.isspace] for one character: TAB..CR, FS..US, SPACE, NEL, NBSP. *)
Definition isspace (c : ascii) : bool :=
  let n := code c in
  (((9 <=? n) && (n <=? 13)) || ((28 <=? n) && (n <=? 32))
   || (n =? 133) || (n =? 160))%N.

(** [str.lower] for one character: A..Z and the Latin-1 capitals
    (0xC0..0xDE without the multiplication sign) move up by 32. *)
Definition lower_char (c : ascii) : ascii :=
  let n := code c in
  if (((65 <=? n) && (n <=? 90))
      || ((192 <=? n) && (n <=? 222) && negb (n =? 215)))%N
  then ascii_of_N (n + 32) else c.

Fixpoint lower (s : string) : string :=
  match s with
  | EmptyString => EmptyString
  | String c s' => String (lower_char c) (lower s')
  end.

Fixpoint lstrip (s : string) : string :=
  match s with
  | EmptyString => EmptyString
  | String c s' => if isspace c then lstrip s' else s
  end.

Fixpoint rstrip (s : string) : string :=
  match s with
  | EmptyString => EmptyString
  | String c s' =>
      match rstrip s' with
      | EmptyString => if isspace c then EmptyString else String c EmptyString
      | r => String c r
      end
  end.

(** [s.strip()]: leading and trailing whitespace removed. *)
Definition strip (s : string) : string := rstrip (lstrip s).

(** [sub in s] for two strings. *)
Fixpoint contains (sub s : string) : bool :=
  prefix sub s
  || match s with
     | EmptyString => false
     | String _ s' => contains sub s'
     end.

(** [not s] for a string. *)
Definition is_empty (s : string) : bool :=
  match s with EmptyString => true | _ => false end.

End Text.

Import Text.

(* ================================================================== *)
(** ** Python values, as [json.loads] builds them *)

Inductive pyval : Type :=
| PyNone
| PyBool (b : bool)
| PyInt (n : Z)
| PyFloat (x : float)
| PyStr (s : string)
| PyList (l : list pyval)
| PyDict (d : list (string * pyval)).

(** A dict is kept as its items; the first item of a key is the key's value. *)
Definition dict := list (string * pyval).

Fixpoint dict_lookup (d : dict) (k : string) : option pyval :=
  match d with
  | [] => None
  | (k', v) :: d' => if String.eqb k' k then Some v else dict_lookup d' k
  end.

(** [d[k] = v]. *)
Definition dict_set (d : dict) (k : string) (v : pyval) : dict := (k, v) :: d.

(** Python's truth value of an object. *)
Definition truthy (v : pyval) : bool :=
  match v with
  | PyNone => false
  | PyBool b => b
  | PyInt n => negb (n =? 0)%Z
  | PyFloat x => negb (PrimFloat.eqb x 0%float)
  | PyStr s => negb (is_empty s)
  | PyList l => match l with [] => false | _ => true end
  | PyDict d => match d with [] => false | _ => true end
  end.

(** [a or b]. *)
Definition py_or (a b : pyval) : pyval := if truthy a then a else b.


(* ================================================================== *)
(** ** The store: DataBase/appdata.db *)

(** A table created with [id INTEGER PRIMARY KEY AUTOINCREMENT]: its rows in
    insertion order, each with its rowid, and the table's entry of
    [sqlite_sequence] (the largest rowid ever handed out). *)
Record Table (R : Type) : Type := mkTable {
  rows : list (Z * R);
  seq : Z
}.
Arguments mkTable {R} _ _.
Arguments rows {R} _.
Arguments seq {R} _.

(** contacts(id, name, email, message, created_at) *)
Record Contact : Type := mkContact {
  contact_name : string;
  contact_email : string;
  contact_message : string;
  contact_created_at : string
}.

(** chats(id, sender, message, created_at) *)
Record Chat : Type := mkChat {
  chat_sender : string;
  chat_message : string;
  chat_created_at : string
}.

(** The database file: each table is there or not. *)
Record Store : Type := mkStore {
  contacts : option (Table Contact);
  chats : option (Table Chat)
}.

Definition empty_table {R : Type} : Table R := mkTable [] 0%Z.

Definition max_rowid {R : Type} (t : Table R) : Z :=
  fold_right (fun r acc => Z.max (fst r) acc) 0%Z (rows t).

(** AUTOINCREMENT: one more than the largest rowid the table ever had. *)
Definition next_rowid {R : Type} (t : Table R) : Z :=
  (Z.max (seq t) (max_rowid t) + 1)%Z.

(** [INSERT INTO t (...) VALUES (...)]: the row goes last, with a new rowid. *)
Definition table_insert {R : Type} (t : Table R) (r : R) : Table R :=
  let i := next_rowid t in mkTable (rows t ++ [(i, r)]) i.

(** The largest rowid of SQLite, 2^63 - 1.  Once a table has had it,
    AUTOINCREMENT has no rowid left and an INSERT fails (SQLITE_FULL). *)
Definition sqlite_max_rowid : Z := 9223372036854775807%Z.

Definition rowid_full {R : Type} (t : Table R) : bool :=
  (sqlite_max_rowid <? next_rowid t)%Z.

(** [CREATE TABLE IF NOT EXISTS]: a table that is there is left as it is. *)
Definition create_if_not_exists {R : Type} (t : option (Table R))
  : option (Table R) :=
  match t with
  | Some t' => Some t'
  | None => Some empty_table
  end.

(* ================================================================== *)
(** ** The process state and the monad of the handlers *)

(** [appdata] is the committed content of the database file; [g_database]
    is the attribute [g._database] of the current application context: the
    open connection, with what it sees (its own uncommitted statements
    included).  [utcnow] and [ticks] stand for the clock: the [n]-th reading
    of [datetime.utcnow().isoformat()] is [utcnow n]. *)
Record World : Type := mkWorld {
  appdata : Store;
  g_database : option Store;
  utcnow : nat -> string;
  ticks : nat
}.

Inductive exn : Type :=
| BadRequest         (* get_json: the body is not JSON *)
| AttributeError     (* .get or .strip on an object that has none *)
| OperationalError   (* sqlite3: no such table, or no rowid left *)
| ProgrammingError   (* sqlite3: no open connection *)
| BuildError.        (* url_for: no rule for the endpoint *)

Inductive outcome (A : Type) : Type :=
| Return (a : A)
| Raise (e : exn).
Arguments Return {A} _.
Arguments Raise {A} _.

Definition M (A : Type) : Type := World -> outcome A * World.

Definition ret {A : Type} (a : A) : M A := fun w => (Return a, w).

Definition raise {A : Type} (e : exn) : M A := fun w => (Raise e, w).

Definition bind {A B : Type} (m : M A) (k : A -> M B) : M B :=
  fun w =>
    match m w with
    | (Return a, w') => k a w'
    | (Raise e, w') => (Raise e, w')
    end.

(** [try: body except Exception as e: handler]. *)
Definition try_except {A : Type} (body : M A) (handler : exn -> M A) : M A :=
  fun w =>
    match body w with
    | (Return a, w') => (Return a, w')
    | (Raise e, w') => handler e w'
    end.

Declare Scope py_scope.
Delimit Scope py_scope with py.
Notation "x <- c ;; k" := (bind c (fun x => k))
  (at level 61, c at next level, right associativity) : py_scope.
Notation "c ;; k" := (bind c (fun _ => k))
  (at level 61, right associativity) : py_scope.
Local Open Scope py_scope.

(* ================================================================== *)
(** ** Flask and sqlite3, as far as app.py uses them *)

Inductive Method : Type := GET | POST.

(** A request: its method, its path as werkzeug's matcher takes it (after
    its own normalisation of the URL, such as merged slashes), and its body
    as [json.loads] reads it ([None] when the body is not JSON). *)
Record Request : Type := mkRequest {
  req_method : Method;
  req_path : string;
  req_json : option pyval
}.

Inductive Response : Type :=
| Json (status : Z) (body : dict)           (* jsonify(body), status *)
| Template (name : string)                  (* render_template(name) *)
| Redirect (location : string) (status : Z) (* redirect(location) *)
| StaticFile (filename : string)            (* send_static_file(filename) *)
| Abort (status : Z).                       (* Flask's own error pages *)

(** [request.get_json(force=True)]. *)
Definition get_json (request : Request) : M pyval :=
  match req_json request with
  | Some v => ret v
  | None => raise BadRequest
  end.

(** [data.get(k)]: only a dict has the method. *)
Definition py_get (data : pyval) (k : string) : M pyval :=
  match data with
  | PyDict d =>
      ret (match dict_lookup d k with Some v => v | None => PyNone end)
  | _ => raise AttributeError
  end.

(** [v.strip()]: only a str has the method. *)
Definition py_strip (v : pyval) : M string :=
  match v with
  | PyStr s => ret (strip s)
  | _ => raise AttributeError
  end.

(** [datetime.utcnow().isoformat()]. *)
Definition utcnow_isoformat : M string :=
  fun w =>
    (Return (utcnow w (ticks w)),
     mkWorld (appdata w) (g_database w) (utcnow w) (S (ticks w))).

Inductive Connection : Type := Conn.
Inductive Cursor : Type := Cur.

Inductive Statement : Type :=
| CreateContacts
| CreateChats
| InsertContact (name email message created_at : string)
| InsertChat (sender message created_at : string).

(** What a statement does to the tables; [None] is an error of sqlite3: no
    such table, or no rowid left for the new row. *)
Definition run_statement (q : Statement) (s : Store) : option Store :=
  match q with
  | CreateContacts => Some (mkStore (create_if_not_exists (contacts s)) (chats s))
  | CreateChats => Some (mkStore (contacts s) (create_if_not_exists (chats s)))
  | InsertContact name email message created_at =>
      match contacts s with
      | Some t =>
          if rowid_full t then None
          else
            Some (mkStore
                    (Some (table_insert t
                             (mkContact name email message created_at)))
                    (chats s))
      | None => None
      end
  | InsertChat sender message created_at =>
      match chats s with
      | Some t =>
          if rowid_full t then None
          else
            Some (mkStore (contacts s)
                    (Some (table_insert t
                             (mkChat sender message created_at))))
      | None => None
      end
  end.

(** [get_db()]: the connection of this application context, opened on first
    use. *)
Definition get_db : M Connection :=
  fun w =>
    match g_database w with
    | None =>
        (Return Conn, mkWorld (appdata w) (Some (appdata w)) (utcnow w) (ticks w))
    | Some _ => (Return Conn, w)
    end.

Definition cursor (db : Connection) : M Cursor := ret Cur.

(** [cursor.execute(sql, params)]. *)
Definition execute (cur : Cursor) (q : Statement) : M unit :=
  fun w =>
    match g_database w with
    | None => (Raise ProgrammingError, w)
    | Some view =>
        match run_statement q view with
        | Some view' =>
            (Return tt, mkWorld (appdata w) (Some view') (utcnow w) (ticks w))
        | None => (Raise OperationalError, w)
        end
    end.

(** [db.commit()]. *)
Definition commit (db : Connection) : M unit :=
  fun w =>
    match g_database w with
    | None => (Raise ProgrammingError, w)
    | Some view => (Return tt, mkWorld view (Some view) (utcnow w) (ticks w))
    end.

(** [close_connection], the teardown of the application context: what the
    connection has not committed is lost with it. *)
Definition close_connection (w : World) : World :=
  mkWorld (appdata w) None (utcnow w) (ticks w).

(** A new application context: [g] has no attribute yet. *)
Definition app_context (w : World) : World :=
  mkWorld (appdata w) None (utcnow w) (ticks w).

(* ================================================================== *)
(** ** app.py *)

Definition init_db : M unit :=
  db <- get_db ;;
  cur <- cursor db ;;
  execute cur CreateContacts ;;
  execute cur CreateChats ;;
  commit db.

(** [with app.app_context(): init_db()]. *)
Definition startup (w : World) : outcome unit * World :=
  let (r, w') := init_db (app_context w) in (r, close_connection w').

Definition home : M Response := ret (Template "index.html").

Definition contact_received : string := "Thanks! Your message was received.".
Definition contact_required : string := "Name and email are required.".
Definition server_error : string := "Server error".
Definition empty_message : string := "Empty message".

(** The [print] of an [except] branch goes to the server's log, which is no
    part of [World]. *)
Definition submit_contact (request : Request) : M Response :=
  try_except
    (data <- get_json request ;;
     v <- py_get data "name" ;;
     name <- py_strip (py_or v (PyStr "")) ;;
     v <- py_get data "email" ;;
     email <- py_strip (py_or v (PyStr "")) ;;
     v <- py_get data "message" ;;
     message <- py_strip (py_or v (PyStr "")) ;;
     if is_empty name || is_empty email then
       ret (Json 400 [("ok", PyBool false); ("error", PyStr contact_required)])
     else
       db <- get_db ;;
       cur <- cursor db ;;
       now <- utcnow_isoformat ;;
       execute cur (InsertContact name email message now) ;;
       commit db ;;
       ret (Json 200 [("ok", PyBool true); ("message", PyStr contact_received)]))
    (fun e =>
       ret (Json 500 [("ok", PyBool false); ("error", PyStr server_error)])).

Definition greeting_reply : string :=
  "Hello! How can I help you today? You can ask about projects, services, or hiring.".
Definition projects_reply : string :=
  "I build full-stack and AI applications â€” check the Projects section for examples.".
Definition hiring_reply : string :=
  "Thanks for your interest! Please share a brief message about your requirements â€” I'll get back to you.".
Definition help_reply : string :=
  "Tell me more about the problem and I'll suggest a solution or next steps.".
Definition fallback_reply : string :=
  "Thanks for the message â€” I'll review it and respond soon. Can you share more details?".

(** Lines 118 to 129 of app.py: the reply chosen for the trimmed message. *)
Definition bot_reply (message : string) : string :=
  let msg_lower := lower message in
  if existsb (fun greet => contains greet msg_lower) ["hi"; "hello"; "hey"] then
    greeting_reply
  else if contains "project" msg_lower || contains "work" msg_lower then
    projects_reply
  else if contains "hire" msg_lower || contains "hire me" msg_lower
          || contains "pricing" msg_lower then
    hiring_reply
  else if contains "help" msg_lower || contains "support" msg_lower then
    help_reply
  else
    fallback_reply.

Definition chat_send (request : Request) : M Response :=
  try_except
    (data <- get_json request ;;
     v <- py_get data "message" ;;
     message <- py_strip (py_or v (PyStr "")) ;;
     if is_empty message then
       ret (Json 400 [("ok", PyBool false); ("error", PyStr empty_message)])
     else
       db <- get_db ;;
       cur <- cursor db ;;
       now <- utcnow_isoformat ;;
       execute cur (InsertChat "user" message now) ;;
       commit db ;;
       let reply := bot_reply message in
       now <- utcnow_isoformat ;;
       execute cur (InsertChat "bot" reply now) ;;
       commit db ;;
       ret (Json 200 [("ok", PyBool true); ("reply", PyStr reply)]))
    (fun e =>
       ret (Json 500 [("ok", PyBool false); ("error", PyStr server_error)])).

(** The URL map, in the order of the [@app.route] decorators: rule, methods,
    endpoint. *)
Definition url_map : list (string * list Method * string) :=
  [ ("/", [GET], "home");
    ("/submit_contact", [POST], "submit_contact");
    ("/chat_send", [POST], "chat_send");
    ("/projects", [GET], "projects");
    ("/expertise", [GET], "expertise");
    ("/about", [GET], "about");
    ("/contact", [GET], "contact");
    ("/home", [GET], "home_alias") ].

(** [url_for(endpoint)]: the rule of the endpoint. *)
Definition url_for (endpoint : string) : M string :=
  match find (fun r => String.eqb (snd r) endpoint) url_map with
  | Some (rule, _, _) => ret rule
  | None => raise BuildError
  end.

(** [redirect(location)]; the status is werkzeug's default, 302. *)
Definition redirect (location : string) : Response := Redirect location 302.

Definition projects : M Response :=
  u <- url_for "home" ;; ret (redirect (u ++ "#projects")).

Definition expertise : M Response :=
  u <- url_for "home" ;; ret (redirect (u ++ "#expertise")).

Definition about : M Response :=
  u <- url_for "home" ;; ret (redirect (u ++ "#about")).

Definition contact : M Response :=
  u <- url_for "home" ;; ret (redirect (u ++ "#contact")).

Definition home_alias : M Response :=
  u <- url_for "home" ;; ret (redirect u).

(** The rule [/static/<path:filename>] that [Flask(__name__)] registers for
    GET: the file name in a path under [/static/], which is not empty and
    does not begin with a slash. *)
Definition static_filename (path : string) : option string :=
  if prefix "/static/" path then
    match substring 8 (String.length path - 8) path with
    | EmptyString => None
    | String c f => if Ascii.eqb c "/" then None else Some (String c f)
    end
  else None.

(** Flask's view of the static rule: the file of that name in the static
    folder, or the 404 page when there is none; the folder is no part of
    [World]. *)
Definition send_static_file (filename : string) : M Response :=
  ret (StaticFile filename).

Definition static (request : Request) : M Response :=
  match static_filename (req_path request) with
  | Some filename => send_static_file filename
  | None => ret (Abort 404)
  end.

Definition view_functions (endpoint : string) (request : Request)
  : M Response :=
  if String.eqb endpoint "home" then home
  else if String.eqb endpoint "submit_contact" then submit_contact request
  else if String.eqb endpoint "chat_send" then chat_send request
  else if String.eqb endpoint "projects" then projects
  else if String.eqb endpoint "expertise" then expertise
  else if String.eqb endpoint "about" then about
  else if String.eqb endpoint "contact" then contact
  else if String.eqb endpoint "home_alias" then home_alias
  else if String.eqb endpoint "static" then static request
  else ret (Abort 500).

Definition method_eqb (a b : Method) : bool :=
  match a, b with
  | GET, GET | POST, POST => true
  | _, _ => false
  end.

(** The rule of a path and a method: the endpoint, or the status of the
    routing error (404 for no rule of the path, 405 for none of the
    method).  The static rule and the rules of [url_map] share no path. *)
Definition match_request (request : Request) : Z + string :=
  match static_filename (req_path request) with
  | Some _ =>
      if method_eqb (req_method request) GET then inr "static" else inl 405%Z
  | None =>
      match find (fun r => String.eqb (fst (fst r)) (req_path request))
                 url_map with
      | None => inl 404%Z
      | Some (_, methods, endpoint) =>
          if existsb (method_eqb (req_method request)) methods
          then inr endpoint else inl 405%Z
      end
  end.

(** One request from the time Flask receives it to its teardown: a new
    application context, the view of the matching rule, [close_connection].
    An exception that leaves a view gives Flask's 500 page. *)
Definition serve (request : Request) (w : World) : Response * World :=
  let w0 := app_context w in
  let (resp, w1) :=
    match match_request request with
    | inl status => (Abort status, w0)
    | inr endpoint =>
        match view_functions endpoint request w0 with
        | (Return resp, w') => (resp, w')
        | (Raise _, w') => (Abort 500, w')
        end
    end in
  (resp, close_connection w1).

(* ================================================================== *)
(** ** Vocabulary of the specification *)

(** The text the handlers read from field [k] of a JSON object: the field's
    string, the empty string for a field that is absent, null or otherwise
    false, and nothing for any other value (it has no [strip]). *)
Definition field_text (d : dict) (k : string) : option string :=
  match py_or (match dict_lookup d k with Some v => v | None => PyNone end)
              (PyStr "") with
  | PyStr s => Some s
  | _ => None
  end.

(** A field that is absent or null. *)
Definition missing (d : dict) (k : string) : Prop :=
  dict_lookup d k = None \/ dict_lookup d k = Some PyNone.

(** A POST of the JSON object [d]. *)
Definition post (path : string) (d : dict) : Request :=
  mkRequest POST path (Some (PyDict d)).

Definition get (path : string) : Request := mkRequest GET path None.

(** The store is initialised: both tables are there. *)
Definition initialised (s : Store) : Prop :=
  contacts s <> None /\ chats s <> None.

(** The rows of a table that may be absent. *)
Definition rows_of {R : Type} (t : option (Table R)) : list (Z * R) :=
  match t with
  | Some t' => rows t'
  | None => []
  end.

(** Rows were only added at the end of a table: the table is there after if
    and only if it was there before, with the rows it had, as they were, in
    front of the new ones. *)
Definition appended {R : Type} (before after : option (Table R)) : Prop :=
  match before, after with
  | None, None => True
  | Some a, Some b => exists new, rows b = rows a ++ new
  | _, _ => False
  end.

(** A first start of the process on an empty database file, with a clock
    for the examples, and the state [startup] leaves. *)
Definition clock0 (n : nat) : string := "2024-01-01T00:00:00".

Definition first_start : World := mkWorld (mkStore None None) None clock0 0.

Definition started : World := snd (startup first_start).

(** A process whose chats table has one rowid left: it holds one turn, with
    the rowids 2^63 - 3 and 2^63 - 2. *)
Definition last_turn : Table Chat :=
  mkTable
    [((sqlite_max_rowid - 2)%Z, mkChat "user" "hi" "2023-12-31T23:59:58");
     ((sqlite_max_rowid - 1)%Z,
      mkChat "bot" (bot_reply "hi") "2023-12-31T23:59:59")]
    (sqlite_max_rowid - 1)%Z.

Definition one_rowid_left : World :=
  mkWorld (mkStore (Some empty_table) (Some last_turn)) None clock0 0.













(** What one request can do to the store: nothing, one contact row, one
    chat turn (the user's row and then the bot's), or the user's row alone
    when it takes the last rowid. *)
Inductive store_step : Store -> Store -> Prop :=
| step_none s : store_step s s
| step_contact s t name email message now :
    contacts s = Some t -> rowid_full t = false ->
    name <> "" -> email <> "" ->
    strip name = name -> strip email = email -> strip message = message ->
    store_step s
      (mkStore (Some (table_insert t (mkContact name email message now)))
               (chats s))
| step_user s t message now :
    chats s = Some t -> rowid_full t = false ->
    message <> "" -> strip message = message ->
    store_step s
      (mkStore (contacts s)
         (Some (table_insert t (mkChat "user" message now))))
| step_chat s t message now now' :
    chats s = Some t -> rowid_full t = false ->
    rowid_full (table_insert t (mkChat "user" message now)) = false ->
    message <> "" -> strip message = message ->
    store_step s
      (mkStore (contacts s)
         (Some (table_insert
                  (table_insert t (mkChat "user" message now))
                  (mkChat "bot" (bot_reply message) now')))).

(** The data model's invariants.  A stored inquiry has a name and an email,
    and its texts are trimmed. *)
Definition valid_contact (c : Contact) : Prop :=
  contact_name c <> "" /\ contact_email c <> ""
  /\ strip (contact_name c) = contact_name c
  /\ strip (contact_email c) = contact_email c
  /\ strip (contact_message c) = contact_message c.

(** The chat rows are a log of messages and replies: a row of "bot" holds
    the reply to the trimmed, non-empty message of the row of "user" right
    before it.  A row of "user" may be left without its reply. *)
Inductive chat_log : list Chat -> Prop :=
| log_nil : chat_log []
| log_turn message now now' l :
    message <> "" -> strip message = message ->
    chat_log l ->
    chat_log (mkChat "user" message now
              :: mkChat "bot" (bot_reply message) now' :: l)
| log_user message now l :
    message <> "" -> strip message = message ->
    chat_log l ->
    chat_log (mkChat "user" message now :: l).

(** Rowids are positive and grow along the table, below its counter, which
    is no more than SQLite's largest rowid. *)
Definition rowids_ok {R : Type} (t : Table R) : Prop :=
  StronglySorted Z.lt (map fst (rows t))
  /\ Forall (fun i => 0 < i <= seq t)%Z (map fst (rows t))
  /\ (seq t <= sqlite_max_rowid)%Z.

Definition table_ok {R : Type} (P : list R -> Prop) (t : option (Table R))
  : Prop :=
  match t with
  | Some t' => rowids_ok t' /\ P (map snd (rows t'))
  | None => True
  end.

Definition valid_store (s : Store) : Prop :=
  table_ok (Forall valid_contact) (contacts s) /\ table_ok chat_log (chats s).

(** The states of the running application: the process starts (on any
    database file whose rows are valid, an empty file for one), and serves
    requests one after the other. *)
Inductive reachable : World -> Prop :=
| reach_start w : valid_store (appdata w) -> reachable (snd (startup w))
| reach_serve r w : reachable w -> reachable (snd (serve r w)).

(** The state of the examples after an inquiry and a chat message. *)
Definition after_two_posts : World :=
  snd (serve (post "/chat_send" [("message", PyStr " Can you help? ")])
         (snd (serve (post "/submit_contact"
                        [("name", PyStr "Ada Lovelace");
                         ("email", PyStr "ada@example.org")])
                 started))).

(** The JSON answers of the two handlers. *)
Definition contact_400 : Response :=
  Json 400 [("ok", PyBool false); ("error", PyStr "Name and email are required.")].

Definition contact_200 : Response :=
  Json 200 [("ok", PyBool true);
            ("message", PyStr "Thanks! Your message was received.")].

Definition server_500 : Response :=
  Json 500 [("ok", PyBool false); ("error", PyStr "Server error")].

Definition chat_400 : Response :=
  Json 400 [("ok", PyBool false); ("error", PyStr "Empty message")].

Definition chat_200 (reply : string) : Response :=
  Json 200 [("ok", PyBool true); ("reply", PyStr reply)].

(** What [serve] makes of a view's result. *)
Definition served (r : outcome Response * World) : Response * World :=
  (match fst r with Return resp => resp | Raise _ => Abort 500 end,
   close_connection (snd r)).

(** The effect of one request on the process, with its answer: nothing but
    the teardown; a clock reading spent on an INSERT that fails; one inquiry
    stored; one chat turn stored; the first half of a chat turn stored and
    the INSERT of the reply failed. *)
Inductive effect (r : Request) (w : World) : Response -> World -> Prop :=
| effect_none resp :
    (forall body, resp <> Json 200 body) ->
    effect r w resp (close_connection w)
| effect_refused :
    req_method r = POST ->
    (req_path r = "/submit_contact"
     /\ match contacts (appdata w) with
        | Some t => rowid_full t = true
        | None => True
        end)
    \/ (req_path r = "/chat_send"
        /\ match chats (appdata w) with
           | Some t => rowid_full t = true
           | None => True
           end) ->
    effect r w server_500
      (mkWorld (appdata w) None (utcnow w) (S (ticks w)))
| effect_contact t name email message :
    req_method r = POST -> req_path r = "/submit_contact" ->
    contacts (appdata w) = Some t -> rowid_full t = false ->
    name <> "" -> email <> "" ->
    effect r w contact_200
      (mkWorld
         (mkStore
            (Some (table_insert t
                     (mkContact name email message (utcnow w (ticks w)))))
            (chats (appdata w)))
         None (utcnow w) (S (ticks w)))
| effect_half_turn t message :
    req_method r = POST -> req_path r = "/chat_send" ->
    chats (appdata w) = Some t -> rowid_full t = false ->
    rowid_full
      (table_insert t (mkChat "user" message (utcnow w (ticks w)))) = true ->
    message <> "" ->
    effect r w server_500
      (mkWorld
         (mkStore (contacts (appdata w))
            (Some (table_insert t
                     (mkChat "user" message (utcnow w (ticks w))))))
         None (utcnow w) (S (S (ticks w))))
| effect_chat t message :
    req_method r = POST -> req_path r = "/chat_send" ->
    chats (appdata w) = Some t -> rowid_full t = false ->
    rowid_full
      (table_insert t (mkChat "user" message (utcnow w (ticks w)))) = false ->
    message <> "" ->
    effect r w (chat_200 (bot_reply message))
      (mkWorld
         (mkStore (contacts (appdata w))
            (Some (table_insert
                     (table_insert t
                        (mkChat "user" message (utcnow w (ticks w))))
                     (mkChat "bot" (bot_reply message)
                        (utcnow w (S (ticks w)))))))
         None (utcnow w) (S (S (ticks w)))).

(** The stamps are readings of the clock, taken in this order, each before
    the [n]-th. *)
Definition stamped (clock : nat -> string) (n : nat) (stamps : list string)
  : Prop :=
  exists ks, stamps = map clock ks
             /\ StronglySorted lt ks /\ Forall (fun k => k < n) ks.

(** The rows of both tables carry readings of the process's clock, in the
    order of the rows. *)
Definition chronological (w : World) : Prop :=
  stamped (utcnow w) (ticks w)
    (map (fun row => contact_created_at (snd row))
         (rows_of (contacts (appdata w))))
  /\ stamped (utcnow w) (ticks w)
       (map (fun row => chat_created_at (snd row))
            (rows_of (chats (appdata w)))).

(** The three answers of each handler. *)
Definition contact_answers : list Response :=
  [contact_200; contact_400; server_500].

Definition chat_answers (request : Request) : list Response :=
  server_500 :: chat_400
  :: match req_json request with
     | Some (PyDict d) =>
         match field_text d "message" with
         | Some s => [chat_200 (bot_reply (strip s))]
         | None => []
         end
     | _ => []
     end.

(** A text that is whitespace throughout. *)
Definition all_space (s : string) : bool :=
  forallb isspace (list_ascii_of_string s).

(** A keyword that begins and ends with a character that is no whitespace. *)
Definition starts_solid (k : string) : bool :=
  match k with
  | EmptyString => false
  | String a _ => negb (isspace a)
  end.

Fixpoint ends_solid (k : string) : bool :=
  match k with
  | EmptyString => false
  | String a EmptyString => negb (isspace a)
  | String _ k' => ends_solid k'
  end.

(* ================================================================== *)
(** ** Tactics *)

(** A fact about one character, checked on each of the 256. *)
Ltac by_cases_on_char c :=
  destruct c as [[] [] [] [] [] [] [] []]; reflexivity.

(** A body that is [None] or a given value other than a dict is no dict. *)
Ltac not_a_dict := let d := fresh in let H := fresh in intros d H; discriminate H.

(* ================================================================== *)
(** ** Text lemmas *)

Lemma isspace_lower_char (c : ascii) : isspace (lower_char c) = isspace c.
Proof. by_cases_on_char c. Qed.



Lemma is_empty_true (s : string) : is_empty s = true <-> s = "".
Proof. destruct s; simpl; split; congruence. Qed.

Lemma is_empty_false (s : string) : is_empty s = false <-> s <> "".
Proof. destruct s; simpl; split; congruence. Qed.


Lemma lower_lstrip (s : string) : lower (lstrip s) = lstrip (lower s).
Proof.
  induction s as [|c s IH]; simpl; [reflexivity|].
  rewrite isspace_lower_char. destruct (isspace c); [exact IH | reflexivity].
Qed.

Lemma lower_rstrip (s : string) : lower (rstrip s) = rstrip (lower s).
Proof.
  induction s as [|c s IH]; simpl; [reflexivity|].
  rewrite <- IH, isspace_lower_char.
  destruct (rstrip s); simpl; [destruct (isspace c)|]; reflexivity.
Qed.

(** Trimming and lower-casing commute. *)
Lemma lower_strip (s : string) : lower (strip s) = strip (lower s).
Proof. unfold strip. now rewrite lower_rstrip, lower_lstrip. Qed.


Lemma lower_app (a b : string) : lower (a ++ b) = (lower a ++ lower b)%string.
Proof. induction a as [|c a IH]; [reflexivity|]. cbn. now rewrite IH. Qed.




Lemma rstrip_empty (s : string) :
  rstrip s = "" <-> forallb isspace (list_ascii_of_string s) = true.
Proof.
  induction s as [|c s IH]; simpl; [tauto|].
  destruct (rstrip s) eqn:E.
  - destruct (isspace c); simpl; [tauto|]. split; congruence.
  - split; [congruence|]. intros H. apply andb_prop in H as [_ H].
    apply IH in H. congruence.
Qed.

(** A string trims to nothing exactly when it is whitespace throughout. *)
Lemma strip_empty (s : string) :
  strip s = "" <-> forallb isspace (list_ascii_of_string s) = true.
Proof.
  unfold strip. induction s as [|c s IH]; simpl; [tauto|].
  destruct (isspace c) eqn:E; simpl; [exact IH|].
  rewrite E. destruct (rstrip s); split; congruence.
Qed.

Lemma prefix_app (a b s : string) :
  prefix (a ++ b) s = true -> prefix a s = true.
Proof.
  revert s. induction a as [|c a IH]; intros s H.
  - destruct s; reflexivity.
  - destruct s as [|c' s]; simpl in *; [discriminate H|].
    destruct (ascii_dec c c'); [apply IH, H | discriminate H].
Qed.

Lemma contains_unfold (sub s : string) :
  contains sub s =
  prefix sub s
  || match s with
     | EmptyString => false
     | String _ s' => contains sub s'
     end.
Proof. destruct s; reflexivity. Qed.

(** A text that contains a string contains each of its prefixes. *)
Lemma contains_app (a b s : string) :
  contains (a ++ b) s = true -> contains a s = true.
Proof.
  induction s as [|c s IH]; intros H;
    rewrite contains_unfold in H; rewrite contains_unfold.
  - rewrite orb_false_r in *. exact (prefix_app a b _ H).
  - apply orb_true_iff in H as [H|H]; apply orb_true_iff.
    + left. exact (prefix_app a b _ H).
    + right. exact (IH H).
Qed.

Lemma contains_hire_me (s : string) :
  contains "hire me" s = true -> contains "hire" s = true.
Proof. exact (contains_app "hire" " me" s). Qed.

(* ================================================================== *)
(** ** Running the handlers *)

Lemma bind_ret {A B : Type} (a : A) (k : A -> M B) (w : World) :
  bind (ret a) k w = k a w.
Proof. reflexivity. Qed.

(** [(data.get(k) or '').strip()] on a JSON object. *)
Lemma read_field {B : Type} (d : dict) (k : string) (f : string -> M B)
  (w : World) :
  (v <- py_get (PyDict d) k ;; s <- py_strip (py_or v (PyStr "")) ;; f s) w =
  match field_text d k with
  | Some s => f (strip s) w
  | None => (Raise AttributeError, w)
  end.
Proof.
  unfold field_text, py_get. rewrite bind_ret.
  destruct (py_or _ _); reflexivity.
Qed.

(** The same on a value that is no JSON object. *)
Lemma read_field_no_dict {B : Type} (data : pyval) (k : string)
  (f : string -> M B) (w : World) :
  (forall d, data <> PyDict d) ->
  (v <- py_get data k ;; s <- py_strip (py_or v (PyStr "")) ;; f s) w =
  (Raise AttributeError, w).
Proof. intros H. destruct data; try reflexivity. now destruct (H d). Qed.

Lemma max_rowid_app {R : Type} (l : list (Z * R)) (i s s' : Z) (r : R) :
  max_rowid (mkTable (l ++ [(i, r)]) s) =
  Z.max (max_rowid (mkTable l s')) (Z.max i 0).
Proof.
  unfold max_rowid. simpl. induction l as [|x l IH]; simpl; [lia|].
  rewrite IH. lia.
Qed.

Lemma max_rowid_nonneg {R : Type} (t : Table R) : (0 <= max_rowid t)%Z.
Proof.
  unfold max_rowid. induction (rows t) as [|x l IH]; simpl; lia.
Qed.

(** Two inserts in a row get consecutive rowids. *)
Lemma next_rowid_insert {R : Type} (t : Table R) (r : R) :
  next_rowid (table_insert t r) = (next_rowid t + 1)%Z.
Proof.
  unfold table_insert, next_rowid at 1. cbn [seq].
  rewrite (max_rowid_app (rows t) _ _ (seq t)).
  change (mkTable (rows t) (seq t)) with
    (mkTable (rows (mkTable (rows t) (seq t))) (seq t)).
  assert (H : max_rowid (mkTable (rows t) (seq t)) = max_rowid t)
    by reflexivity.
  cbn [rows]. rewrite H. pose proof (max_rowid_nonneg t).
  unfold next_rowid. lia.
Qed.

Lemma table_insert_twice {R : Type} (t : Table R) (a b : R) :
  table_insert (table_insert t a) b =
  mkTable (rows t ++ [(next_rowid t, a); ((next_rowid t + 1)%Z, b)])
          (next_rowid t + 1)%Z.
Proof.
  rewrite <- (next_rowid_insert t a). unfold table_insert. cbn [rows].
  now rewrite <- app_assoc.
Qed.

(** *** The contact handler *)

(** The JSON object [d] posted to the contact handler, by what its three
    fields hold. *)
Lemma submit_contact_dict (m : Method) (p : string) (d : dict) (w : World) :
  submit_contact (mkRequest m p (Some (PyDict d))) (app_context w) =
  match field_text d "name", field_text d "email", field_text d "message" with
  | Some n, Some e, Some msg =>
      if is_empty (strip n) || is_empty (strip e) then
        (Return contact_400, app_context w)
      else
        match contacts (appdata w) with
        | Some t =>
            if rowid_full t then
              (Return server_500,
               mkWorld (appdata w) (Some (appdata w)) (utcnow w)
                 (S (ticks w)))
            else
              let s' :=
                mkStore
                  (Some (table_insert t
                           (mkContact (strip n) (strip e) (strip msg)
                              (utcnow w (ticks w)))))
                  (chats (appdata w)) in
              (Return contact_200,
               mkWorld s' (Some s') (utcnow w) (S (ticks w)))
        | None =>
            (Return server_500,
             mkWorld (appdata w) (Some (appdata w)) (utcnow w) (S (ticks w)))
        end
  | _, _, _ => (Return server_500, app_context w)
  end.
Proof.
  unfold submit_contact, try_except.
  change (get_json (mkRequest m p (Some (PyDict d)))) with (ret (PyDict d)).
  rewrite bind_ret, read_field.
  destruct (field_text d "name") as [n|]; [|reflexivity].
  rewrite read_field.
  destruct (field_text d "email") as [e|]; [|reflexivity].
  rewrite read_field.
  destruct (field_text d "message") as [msg|]; [|reflexivity].
  destruct (is_empty (strip n) || is_empty (strip e)); [reflexivity|].
  unfold bind, get_db, cursor, ret, utcnow_isoformat, execute, commit. simpl.
  destruct (contacts (appdata w)) as [t|]; [|reflexivity].
  destruct (rowid_full t); reflexivity.
Qed.

(** Any other body: the handler's [except] branch answers. *)
Lemma submit_contact_no_dict (m : Method) (p : string) (b : option pyval)
  (w : World) :
  (forall d, b <> Some (PyDict d)) ->
  submit_contact (mkRequest m p b) (app_context w) =
  (Return server_500, app_context w).
Proof.
  intros H. unfold submit_contact, try_except, get_json. cbn [req_json].
  destruct b as [data|]; [|reflexivity].
  rewrite bind_ret, read_field_no_dict; [reflexivity|].
  intros d ->. now apply (H d).
Qed.

(** *** The chat handler *)

Lemma chat_send_dict (m : Method) (p : string) (d : dict) (w : World) :
  chat_send (mkRequest m p (Some (PyDict d))) (app_context w) =
  match field_text d "message" with
  | Some s =>
      if is_empty (strip s) then (Return chat_400, app_context w)
      else
        match chats (appdata w) with
        | Some t =>
            let reply := bot_reply (strip s) in
            let t1 :=
              table_insert t (mkChat "user" (strip s) (utcnow w (ticks w))) in
            let t2 :=
              table_insert t1 (mkChat "bot" reply (utcnow w (S (ticks w)))) in
            if rowid_full t then
              (Return server_500,
               mkWorld (appdata w) (Some (appdata w)) (utcnow w)
                 (S (ticks w)))
            else if rowid_full t1 then
              let s1 := mkStore (contacts (appdata w)) (Some t1) in
              (Return server_500,
               mkWorld s1 (Some s1) (utcnow w) (S (S (ticks w))))
            else
              let s' := mkStore (contacts (appdata w)) (Some t2) in
              (Return (chat_200 reply),
               mkWorld s' (Some s') (utcnow w) (S (S (ticks w))))
        | None =>
            (Return server_500,
             mkWorld (appdata w) (Some (appdata w)) (utcnow w) (S (ticks w)))
        end
  | None => (Return server_500, app_context w)
  end.
Proof.
  unfold chat_send, try_except.
  change (get_json (mkRequest m p (Some (PyDict d)))) with (ret (PyDict d)).
  rewrite bind_ret, read_field.
  destruct (field_text d "message") as [s|]; [|reflexivity].
  destruct (is_empty (strip s)); [reflexivity|].
  unfold bind, get_db, cursor, ret, utcnow_isoformat, execute, commit. simpl.
  destruct (chats (appdata w)) as [t|]; [|reflexivity].
  destruct (rowid_full t); [reflexivity|]. simpl.
  destruct (rowid_full (table_insert t _)); reflexivity.
Qed.

Lemma chat_send_no_dict (m : Method) (p : string) (b : option pyval)
  (w : World) :
  (forall d, b <> Some (PyDict d)) ->
  chat_send (mkRequest m p b) (app_context w) =
  (Return server_500, app_context w).
Proof.
  intros H. unfold chat_send, try_except, get_json. cbn [req_json].
  destruct b as [data|]; [|reflexivity].
  rewrite bind_ret, read_field_no_dict; [reflexivity|].
  intros d ->. now apply (H d).
Qed.

(** Every branch of the reply rules gives a text. *)
Lemma bot_reply_nonempty (message : string) : bot_reply message <> "".
Proof.
  unfold bot_reply.
  repeat match goal with
         | |- context [if ?b then _ else _] => destruct b
         end; discriminate.
Qed.

Lemma serve_submit_contact (b : option pyval) (w : World) :
  serve (mkRequest POST "/submit_contact" b) w =
  served (submit_contact (mkRequest POST "/submit_contact" b) (app_context w)).
Proof.
  unfold serve, served.
  change (match_request (mkRequest POST "/submit_contact" b))
    with (@inr Z string "submit_contact").
  cbv beta iota.
  change (view_functions "submit_contact" ?r ?x) with (submit_contact r x).
  destruct (submit_contact _ _) as [[resp|e] w']; reflexivity.
Qed.

Lemma serve_chat_send (b : option pyval) (w : World) :
  serve (mkRequest POST "/chat_send" b) w =
  served (chat_send (mkRequest POST "/chat_send" b) (app_context w)).
Proof.
  unfold serve, served.
  change (match_request (mkRequest POST "/chat_send" b))
    with (@inr Z string "chat_send").
  cbv beta iota.
  change (view_functions "chat_send" ?r ?x) with (chat_send r x).
  destruct (chat_send _ _) as [[resp|e] w']; reflexivity.
Qed.

Lemma rowid_full_false {R : Type} (t : Table R) :
  rowid_full t = false <-> (next_rowid t <= sqlite_max_rowid)%Z.
Proof. unfold rowid_full. apply Z.ltb_ge. Qed.

Lemma rowid_full_true {R : Type} (t : Table R) :
  rowid_full t = true <-> (sqlite_max_rowid < next_rowid t)%Z.
Proof. unfold rowid_full. apply Z.ltb_lt. Qed.

(** Room for two rows is room for one, and for one more after it. *)
Lemma rowid_room_for_two {R : Type} (t : Table R) (r : R) :
  (next_rowid t < sqlite_max_rowid)%Z ->
  rowid_full t = false /\ rowid_full (table_insert t r) = false.
Proof.
  intros H. split; apply rowid_full_false; [lia|].
  rewrite next_rowid_insert. lia.
Qed.

(** A chat message that is not empty after trimming, with the table there
    and two rowids left. *)
Lemma serve_chat_valid (w : World) (d : dict) (s : string) (t : Table Chat) :
  field_text d "message" = Some s ->
  strip s <> "" ->
  chats (appdata w) = Some t ->
  (next_rowid t < sqlite_max_rowid)%Z ->
  serve (post "/chat_send" d) w =
  (chat_200 (bot_reply (strip s)),
   mkWorld
     (mkStore (contacts (appdata w))
        (Some (table_insert
                 (table_insert t
                    (mkChat "user" (strip s) (utcnow w (ticks w))))
                 (mkChat "bot" (bot_reply (strip s))
                    (utcnow w (S (ticks w)))))))
     None (utcnow w) (S (S (ticks w)))).
Proof.
  intros Hs Hs' Ht Hroom. unfold post.
  rewrite serve_chat_send, chat_send_dict, Hs, Ht.
  apply is_empty_false in Hs'. rewrite Hs'. cbv zeta.
  destruct (rowid_room_for_two t
              (mkChat "user" (strip s) (utcnow w (ticks w))) Hroom)
    as [H1 H2].
  now rewrite H1, H2.
Qed.

(** The same with one rowid left: the user's row is stored and committed,
    the reply's INSERT fails, and the [except] branch answers. *)
Lemma serve_chat_partial (w : World) (d : dict) (s : string)
  (t : Table Chat) :
  field_text d "message" = Some s ->
  strip s <> "" ->
  chats (appdata w) = Some t ->
  next_rowid t = sqlite_max_rowid ->
  serve (post "/chat_send" d) w =
  (server_500,
   mkWorld
     (mkStore (contacts (appdata w))
        (Some (table_insert t
                 (mkChat "user" (strip s) (utcnow w (ticks w))))))
     None (utcnow w) (S (S (ticks w)))).
Proof.
  intros Hs Hs' Ht Hlast. unfold post.
  rewrite serve_chat_send, chat_send_dict, Hs, Ht.
  apply is_empty_false in Hs'. rewrite Hs'. cbv zeta.
  assert (H1 : rowid_full t = false) by (apply rowid_full_false; lia).
  assert (H2 : rowid_full
                 (table_insert t
                    (mkChat "user" (strip s) (utcnow w (ticks w)))) = true).
  { apply rowid_full_true. rewrite next_rowid_insert. lia. }
  now rewrite H1, H2.
Qed.

(* ================================================================== *)
(** ** The contact form *)



(** C4, as it is stated, fails: the three fields are trimmed before the
    name and the email are looked at, so an empty name with a message or an
    email that is no text gets the answer of the [except] branch, 500. *)
Lemma submit_contact_strips_before_it_validates :
  fst (serve (post "/submit_contact"
                [("name", PyStr ""); ("email", PyStr "a@b.c");
                 ("message", PyInt 7)]) started)
  = Json 500 [("ok", PyBool false); ("error", PyStr "Server error")]
  /\ fst (serve (post "/submit_contact"
                   [("name", PyStr "  "); ("email", PyInt 7)]) started)
     = Json 500 [("ok", PyBool false); ("error", PyStr "Server error")].
Proof. split; reflexivity. Qed.

(** C4, amended.  A contact payload whose three fields are texts (or absent,
    null or otherwise false) and whose name or email is empty after
    trimming is refused with [ok: false], status 400 and the text "Name and
    email are required."; the store is left as it was. *)
Theorem submit_contact_requires_name_and_email (w : World) (d : dict)
  (n e msg : string) :
  field_text d "name" = Some n ->
  field_text d "email" = Some e ->
  field_text d "message" = Some msg ->
  strip n = "" \/ strip e = "" ->
  fst (serve (post "/submit_contact" d) w) =
    Json 400 [("ok", PyBool false);
              ("error", PyStr "Name and email are required.")]
  /\ appdata (snd (serve (post "/submit_contact" d) w)) = appdata w.
Proof.
  intros Hn He Hm Hempty. unfold post.
  rewrite serve_submit_contact, submit_contact_dict, Hn, He, Hm.
  assert (Hb : is_empty (strip n) || is_empty (strip e) = true).
  { apply orb_true_iff. destruct Hempty as [H|H]; [left|right];
      now apply is_empty_true. }
  rewrite Hb. split; reflexivity.
Qed.


Lemma submit_contact_requires_name_and_email_witness :
  let d := [("name", PyStr "   "); ("email", PyStr "ada@example.org")] in
  fst (serve (post "/submit_contact" d) started) =
    Json 400 [("ok", PyBool false);
              ("error", PyStr "Name and email are required.")]
  /\ appdata (snd (serve (post "/submit_contact" d) started)) =
       appdata started.
Proof.
  intros d.
  apply (submit_contact_requires_name_and_email started d
           "   " "ada@example.org" ""); try reflexivity.
  left. reflexivity.
Defined.

(* ================================================================== *)
(** ** The chat widget *)

(** C1, as it is stated, fails: a message that is not empty after trimming
    does not suffice.  With one rowid left in [chats] the user's row is
    stored and committed, the INSERT of the reply fails, and the answer is
    500: one new row, not two. *)
Lemma chat_send_may_store_half_a_turn :
  strip "hello" <> ""
  /\ fst (serve (post "/chat_send" [("message", PyStr "hello")])
            one_rowid_left)
     = Json 500 [("ok", PyBool false); ("error", PyStr "Server error")]
  /\ rows_of (chats (appdata (snd (serve (post "/chat_send"
                                            [("message", PyStr "hello")])
                                     one_rowid_left))))
     = rows_of (chats (appdata one_rowid_left))
       ++ [(sqlite_max_rowid, mkChat "user" "hello" "2024-01-01T00:00:00")].
Proof.
  split; [discriminate|]. split; reflexivity.
Qed.

(** C1, amended.  A chat payload whose message is a text that is not empty
    after trimming is answered with [ok: true] and a non-empty reply, and
    exactly two rows are appended to [chats]: the trimmed message from
    "user", then the returned reply from "bot".  The table is there, as
    [init_db] leaves it at startup, and has two rowids left. *)
Theorem chat_send_stores_turn (w : World) (d : dict) (s : string)
  (t : Table Chat) :
  field_text d "message" = Some s ->
  strip s <> "" ->
  chats (appdata w) = Some t ->
  (next_rowid t < sqlite_max_rowid)%Z ->
  let reply := bot_reply (strip s) in
  let i := next_rowid t in
  fst (serve (post "/chat_send" d) w) =
    Json 200 [("ok", PyBool true); ("reply", PyStr reply)]
  /\ reply <> ""
  /\ chats (appdata (snd (serve (post "/chat_send" d) w))) =
       Some (mkTable
               (rows t ++
                [(i, mkChat "user" (strip s) (utcnow w (ticks w)));
                 ((i + 1)%Z, mkChat "bot" reply (utcnow w (S (ticks w))))])
               (i + 1)%Z)
  /\ contacts (appdata (snd (serve (post "/chat_send" d) w))) =
       contacts (appdata w).
Proof.
  intros Hs Hs' Ht Hroom reply i. subst reply i.
  rewrite (serve_chat_valid w d s t Hs Hs' Ht Hroom).
  cbn [fst snd appdata chats contacts].
  repeat split.
  - apply bot_reply_nonempty.
  - now rewrite table_insert_twice.
Qed.

(** C5.  A chat payload whose message is empty or whitespace throughout
    (empty after trimming) is refused with [ok: false], status 400 and the
    text "Empty message"; the store is left as it was. *)
Theorem chat_send_rejects_empty (w : World) (d : dict) (s : string) :
  field_text d "message" = Some s ->
  s = "" \/ forallb isspace (list_ascii_of_string s) = true \/ strip s = "" ->
  fst (serve (post "/chat_send" d) w) =
    Json 400 [("ok", PyBool false); ("error", PyStr "Empty message")]
  /\ appdata (snd (serve (post "/chat_send" d) w)) = appdata w.
Proof.
  intros Hs Hempty.
  assert (H : strip s = "").
  { destruct Hempty as [->|[H|H]]; [reflexivity | now apply strip_empty | exact H]. }
  unfold post. rewrite serve_chat_send, chat_send_dict, Hs.
  apply is_empty_true in H. rewrite H. split; reflexivity.
Qed.

Lemma chat_send_stores_turn_witness :
  let d := [("message", PyStr "  Can you help?  ")] in
  fst (serve (post "/chat_send" d) started) =
    Json 200 [("ok", PyBool true); ("reply", PyStr help_reply)]
  /\ help_reply <> ""
  /\ chats (appdata (snd (serve (post "/chat_send" d) started))) =
       Some (mkTable
               [(1%Z, mkChat "user" "Can you help?" "2024-01-01T00:00:00");
                (2%Z, mkChat "bot" help_reply "2024-01-01T00:00:00")]
               2%Z)
  /\ contacts (appdata (snd (serve (post "/chat_send" d) started))) =
       Some empty_table.
Proof.
  intros d.
  apply (chat_send_stores_turn started d "  Can you help?  " empty_table);
    try reflexivity.
  intros H; vm_compute in H; discriminate H.
Defined.

Lemma chat_send_rejects_empty_witness :
  let d := [("message", PyStr "   ")] in
  fst (serve (post "/chat_send" d) started) =
    Json 400 [("ok", PyBool false); ("error", PyStr "Empty message")]
  /\ appdata (snd (serve (post "/chat_send" d) started)) = appdata started.
Proof.
  intros d. apply (chat_send_rejects_empty started d "   "); try reflexivity.
  right. left. reflexivity.
Defined.

(* ================================================================== *)
(** ** The reply rules *)











(** C6.  "hey, any projects?" gets the greeting: the text matches rule 1 (it
    contains "hey") and rule 2 (it contains "project"), the two rules give
    different replies, and the first one wins. *)
Theorem greeting_wins_over_projects :
  bot_reply "hey, any projects?" = greeting_reply
  /\ contains "hey" (lower "hey, any projects?") = true
  /\ contains "project" (lower "hey, any projects?") = true
  /\ greeting_reply <> projects_reply
  /\ fst (serve (post "/chat_send" [("message", PyStr "hey, any projects?")])
            started)
     = Json 200 [("ok", PyBool true); ("reply", PyStr greeting_reply)].
Proof.
  repeat split; try reflexivity.
  intros H. vm_compute in H. discriminate H.
Qed.

(* ================================================================== *)
(** ** Table creation *)

Lemma init_db_run (w : World) :
  init_db w =
  let view := match g_database w with Some v => v | None => appdata w end in
  let s' :=
    mkStore (create_if_not_exists (contacts view))
            (create_if_not_exists (chats view)) in
  (Return tt, mkWorld s' (Some s') (utcnow w) (ticks w)).
Proof.
  destruct w as [store [view|] clock n]; reflexivity.
Qed.

Lemma startup_run (w : World) :
  startup w =
  (Return tt,
   mkWorld (mkStore (create_if_not_exists (contacts (appdata w)))
                    (create_if_not_exists (chats (appdata w))))
           None (utcnow w) (ticks w)).
Proof. unfold startup. rewrite init_db_run. reflexivity. Qed.

Lemma create_if_not_exists_idem {R : Type} (t : option (Table R)) :
  create_if_not_exists (create_if_not_exists t) = create_if_not_exists t.
Proof. destruct t; reflexivity. Qed.

Lemma startup_twice (w : World) : startup (snd (startup w)) = startup w.
Proof.
  rewrite (startup_run w). cbn [snd]. rewrite startup_run.
  cbn [appdata contacts chats utcnow ticks].
  now rewrite !create_if_not_exists_idem.
Qed.

(** C7.  Table creation is idempotent.  From any database file, with or
    without the tables, [init_db] raises nothing and leaves both tables
    there; a table that was there keeps its rows and its rowid counter, a
    table that was not is created empty.  A second run, in the same context
    or in a new one, changes nothing, and so does any number of runs. *)
Theorem init_db_idempotent (w : World) :
  let w1 := snd (startup w) in
  fst (startup w) = Return tt
  /\ fst (init_db w) = Return tt
  /\ (exists tc tm,
        contacts (appdata w1) = Some tc /\ chats (appdata w1) = Some tm)
  /\ match contacts (appdata w) with
     | Some t => contacts (appdata w1) = Some t
     | None => contacts (appdata w1) = Some empty_table
     end
  /\ match chats (appdata w) with
     | Some t => chats (appdata w1) = Some t
     | None => chats (appdata w1) = Some empty_table
     end
  /\ startup w1 = (Return tt, w1)
  /\ init_db (snd (init_db w)) = (Return tt, snd (init_db w))
  /\ forall n, Nat.iter (S n) (fun x => snd (startup x)) w = w1.
Proof.
  intros w1. subst w1.
  split; [now rewrite startup_run|].
  split; [now rewrite init_db_run|].
  split.
  { rewrite startup_run. cbn [snd appdata contacts chats].
    destruct (contacts (appdata w)), (chats (appdata w)); simpl; eauto. }
  split; [rewrite startup_run; now destruct (contacts (appdata w))|].
  split; [rewrite startup_run; now destruct (chats (appdata w))|].
  split.
  { rewrite startup_twice. now rewrite startup_run. }
  split.
  { rewrite (init_db_run w). cbn [snd]. rewrite init_db_run.
    cbn [g_database appdata contacts chats utcnow ticks].
    now rewrite !create_if_not_exists_idem. }
  induction n as [|n IH].
  - reflexivity.
  - change (Nat.iter (S (S n)) (fun x => snd (startup x)) w)
      with (snd (startup (Nat.iter (S n) (fun x => snd (startup x)) w))).
    now rewrite IH, startup_twice.
Qed.

(** After startup both tables are there, and serving a request keeps them. *)
Lemma startup_initialised (w : World) : initialised (appdata (snd (startup w))).
Proof.
  rewrite startup_run. cbn [snd appdata]. unfold initialised.
  cbn [contacts chats].
  destruct (contacts (appdata w)), (chats (appdata w)); split; discriminate.
Qed.

(* ================================================================== *)
(** ** Rows are only ever added *)

Lemma appended_refl {R : Type} (t : option (Table R)) : appended t t.
Proof. destruct t as [t|]; simpl; [exists []; now rewrite app_nil_r | exact I]. Qed.

Lemma appended_insert {R : Type} (t : Table R) (r : R) :
  appended (Some t) (Some (table_insert t r)).
Proof. simpl. eauto. Qed.

Lemma appended_trans {R : Type} (a b c : option (Table R)) :
  appended a b -> appended b c -> appended a c.
Proof.
  destruct a as [a|], b as [b|], c as [c|]; simpl; try tauto.
  intros [n1 H1] [n2 H2]. exists (n1 ++ n2). now rewrite H2, H1, app_assoc.
Qed.

Lemma submit_contact_frame (r : Request) (w : World) :
  appended (contacts (appdata w))
           (contacts (appdata (snd (submit_contact r (app_context w)))))
  /\ chats (appdata (snd (submit_contact r (app_context w)))) =
     chats (appdata w).
Proof.
  destruct r as [m p [data|]];
    [destruct data as [| | | | |l|d]|];
    try (rewrite submit_contact_no_dict by not_a_dict;
         split; [apply appended_refl | reflexivity]).
  rewrite submit_contact_dict.
  destruct (field_text d "name") as [n|],
           (field_text d "email") as [e|],
           (field_text d "message") as [msg|];
    try (split; [apply appended_refl | reflexivity]).
  destruct (is_empty (strip n) || is_empty (strip e));
    [split; [apply appended_refl | reflexivity]|].
  destruct (contacts (appdata w)) as [t|] eqn:Ht;
    [destruct (rowid_full t)|]; cbn [snd appdata contacts chats].
  - rewrite Ht. split; [apply appended_refl | reflexivity].
  - split; [apply appended_insert | reflexivity].
  - rewrite Ht. split; [exact I | reflexivity].
Qed.

Lemma chat_send_frame (r : Request) (w : World) :
  appended (chats (appdata w))
           (chats (appdata (snd (chat_send r (app_context w)))))
  /\ contacts (appdata (snd (chat_send r (app_context w)))) =
     contacts (appdata w).
Proof.
  destruct r as [m p [data|]];
    [destruct data as [| | | | |l|d]|];
    try (rewrite chat_send_no_dict by not_a_dict;
         split; [apply appended_refl | reflexivity]).
  rewrite chat_send_dict.
  destruct (field_text d "message") as [s|];
    [|split; [apply appended_refl | reflexivity]].
  destruct (is_empty (strip s));
    [split; [apply appended_refl | reflexivity]|].
  destruct (chats (appdata w)) as [t|] eqn:Ht; cbv zeta;
    [destruct (rowid_full t);
     [|destruct (rowid_full (table_insert t _))]|];
    cbn [snd appdata contacts chats].
  - rewrite Ht. split; [apply appended_refl | reflexivity].
  - split; [apply appended_insert | reflexivity].
  - split; [|reflexivity].
    eapply appended_trans; apply appended_insert.
  - rewrite Ht. split; [exact I | reflexivity].
Qed.

(** The views other than the two handlers leave the process as it is. *)
Lemma static_view (v : M Response) (w : World) :
  In v [home; projects; expertise; about; contact; home_alias;
        ret (Abort 500)] ->
  snd (v w) = w.
Proof.
  simpl. intros H.
  repeat (destruct H as [<-|H]; [reflexivity|]). destruct H.
Qed.

Lemma static_file_view (r : Request) (w : World) : snd (static r w) = w.
Proof. unfold static. destruct (static_filename _); reflexivity. Qed.

Lemma view_frame (endpoint : string) (r : Request) (w : World) :
  appended (contacts (appdata w))
           (contacts (appdata (snd (view_functions endpoint r (app_context w)))))
  /\ appended (chats (appdata w))
              (chats (appdata (snd (view_functions endpoint r (app_context w))))).
Proof.
  unfold view_functions.
  repeat match goal with
         | |- context [if String.eqb endpoint ?s then _ else _] =>
             destruct (String.eqb endpoint s)
         end;
    try (rewrite static_view by (simpl; tauto);
         split; apply appended_refl);
    try (rewrite static_file_view; split; apply appended_refl).
  - destruct (submit_contact_frame r w) as [H1 H2].
    split; [exact H1 | rewrite H2; apply appended_refl].
  - destruct (chat_send_frame r w) as [H1 H2].
    split; [rewrite H2; apply appended_refl | exact H1].
Qed.

Lemma serve_appdata (r : Request) (w : World) :
  appdata (snd (serve r w)) =
  match match_request r with
  | inl _ => appdata w
  | inr endpoint => appdata (snd (view_functions endpoint r (app_context w)))
  end.
Proof.
  unfold serve. destruct (match_request r) as [status|endpoint];
    [reflexivity|].
  destruct (view_functions endpoint r (app_context w)) as [[resp|e] w'];
    reflexivity.
Qed.

(** C8.  No request updates or deletes a row.  Whatever the request, each
    table is there afterwards exactly if it was there before, and the rows
    it had are still its first rows, unchanged; a request to the contact
    path leaves [chats] as it was, and a request to the chat path leaves
    [contacts] as it was.  The same holds of the two handlers called on
    any request in a new application context. *)
Theorem rows_are_never_updated_or_deleted (r : Request) (w : World) :
  appended (contacts (appdata w)) (contacts (appdata (snd (serve r w))))
  /\ appended (chats (appdata w)) (chats (appdata (snd (serve r w))))
  /\ (forall m b,
        chats (appdata (snd (serve (mkRequest m "/submit_contact" b) w))) =
        chats (appdata w))
  /\ (forall m b,
        contacts (appdata (snd (serve (mkRequest m "/chat_send" b) w))) =
        contacts (appdata w))
  /\ (appended (contacts (appdata w))
        (contacts (appdata (snd (submit_contact r (app_context w)))))
      /\ chats (appdata (snd (submit_contact r (app_context w)))) =
         chats (appdata w))
  /\ (appended (chats (appdata w))
        (chats (appdata (snd (chat_send r (app_context w)))))
      /\ contacts (appdata (snd (chat_send r (app_context w)))) =
         contacts (appdata w)).
Proof.
  assert (Hall : appended (contacts (appdata w))
                   (contacts (appdata (snd (serve r w))))
                 /\ appended (chats (appdata w))
                      (chats (appdata (snd (serve r w))))).
  { rewrite serve_appdata. destruct (match_request r) as [status|endpoint].
    - split; apply appended_refl.
    - apply view_frame. }
  destruct Hall as [Hc Hm].
  split; [exact Hc|]. split; [exact Hm|].
  split.
  { intros [|] b.
    - reflexivity.
    - rewrite serve_submit_contact. unfold served. cbn [snd close_connection appdata].
      apply submit_contact_frame. }
  split.
  { intros [|] b.
    - reflexivity.
    - rewrite serve_chat_send. unfold served. cbn [snd close_connection appdata].
      apply chat_send_frame. }
  split; [apply submit_contact_frame | apply chat_send_frame].
Qed.

(* ================================================================== *)
(** ** The pages *)

Lemma serve_home (w : World) :
  serve (get "/") w = (Template "index.html", close_connection w).
Proof. reflexivity. Qed.

Lemma serve_home_alias (w : World) :
  serve (get "/home") w = (Redirect "/" 302, close_connection w).
Proof. reflexivity. Qed.

(** C9, as the specification's table has it, fails: the answer to GET /home
    is not the answer to GET /. *)
Lemma home_alias_is_not_the_page :
  fst (serve (get "/home") started) <> fst (serve (get "/") started).
Proof. rewrite serve_home_alias, serve_home. discriminate. Qed.

(** C9, amended.  GET /home is answered with a redirect (status 302) to the
    path of the landing page, [url_for('home')], which is "/"; GET / is
    answered with the rendered page [index.html].  Neither changes the
    store. *)
Theorem home_alias_redirects_to_home (w : World) :
  fst (serve (get "/home") w) = Redirect "/" 302
  /\ (forall w0, url_for "home" w0 = (Return "/", w0))
  /\ fst (serve (get "/") (snd (serve (get "/home") w))) = Template "index.html"
  /\ fst (serve (get "/") w) = Template "index.html"
  /\ appdata (snd (serve (get "/home") w)) = appdata w
  /\ appdata (snd (serve (get "/") w)) = appdata w.
Proof.
  rewrite serve_home_alias. cbn [fst snd]. rewrite !serve_home.
  repeat split.
Qed.

(* ================================================================== *)
(** ** Absent and null fields *)

Lemma field_text_missing (d : dict) (k k' : string) :
  missing d k -> field_text (dict_set d k (PyStr "")) k' = field_text d k'.
Proof.
  intros H. unfold field_text, dict_set. cbn [dict_lookup].
  destruct (String.eqb k k') eqn:E; [|reflexivity].
  apply String.eqb_eq in E. subst k'.
  destruct H as [-> | ->]; reflexivity.
Qed.

Lemma missing_field_text (d : dict) (k : string) :
  missing d k -> field_text d k = Some "".
Proof. unfold field_text. intros [-> | ->]; reflexivity. Qed.

(** The handlers see of a JSON object what [field_text] gives. *)
Lemma submit_contact_fields (m : Method) (p : string) (d d' : dict)
  (w : World) :
  (forall k, field_text d k = field_text d' k) ->
  submit_contact (mkRequest m p (Some (PyDict d))) w =
  submit_contact (mkRequest m p (Some (PyDict d'))) w.
Proof.
  intros H. unfold submit_contact, try_except.
  change (get_json (mkRequest m p (Some (PyDict d)))) with (ret (PyDict d)).
  change (get_json (mkRequest m p (Some (PyDict d')))) with (ret (PyDict d')).
  rewrite !bind_ret.
  rewrite !read_field, H. destruct (field_text d' "name"); [|reflexivity].
  rewrite !read_field, H. destruct (field_text d' "email"); [|reflexivity].
  rewrite !read_field, H. reflexivity.
Qed.

Lemma chat_send_fields (m : Method) (p : string) (d d' : dict) (w : World) :
  (forall k, field_text d k = field_text d' k) ->
  chat_send (mkRequest m p (Some (PyDict d))) w =
  chat_send (mkRequest m p (Some (PyDict d'))) w.
Proof.
  intros H. unfold chat_send, try_except.
  change (get_json (mkRequest m p (Some (PyDict d)))) with (ret (PyDict d)).
  change (get_json (mkRequest m p (Some (PyDict d')))) with (ret (PyDict d')).
  rewrite !bind_ret.
  rewrite !read_field, H. reflexivity.
Qed.

Lemma serve_fields (p : string) (d d' : dict) (w : World) :
  (forall k, field_text d k = field_text d' k) ->
  serve (post p d) w = serve (post p d') w.
Proof.
  intros H. unfold serve.
  change (match_request (post p d')) with (match_request (post p d)).
  destruct (match_request (post p d)) as [status|endpoint]; [reflexivity|].
  assert (Hv : view_functions endpoint (post p d) (app_context w) =
               view_functions endpoint (post p d') (app_context w)).
  { unfold view_functions, post.
    repeat match goal with
           | |- context [if String.eqb endpoint ?s then _ else _] =>
               destruct (String.eqb endpoint s)
           end; try reflexivity.
    - now apply submit_contact_fields.
    - now apply chat_send_fields. }
  now rewrite Hv.
Qed.

(** C10, as it is stated, fails: a contact payload without a name does not
    always get the 400 answer.  With an email that is no text (the number 7)
    the name is absent, and is read as the empty string, yet the answer is
    the 500 of the [except] branch, for the payload and for the one with the
    name set to "": the email is trimmed before the name is looked at. *)
Lemma missing_name_may_get_server_error :
  missing [("email", PyInt 7)] "name"
  /\ fst (serve (post "/submit_contact" [("email", PyInt 7)]) started)
     = Json 500 [("ok", PyBool false); ("error", PyStr "Server error")]
  /\ fst (serve (post "/submit_contact"
                   [("name", PyStr ""); ("email", PyInt 7)]) started)
     = Json 500 [("ok", PyBool false); ("error", PyStr "Server error")]
  /\ fst (serve (post "/submit_contact" [("email", PyInt 7)]) started)
     <> Json 400 [("ok", PyBool false);
                  ("error", PyStr "Name and email are required.")].
Proof.
  split; [left; reflexivity|]. split; [reflexivity|].
  split; [reflexivity|]. intros H. vm_compute in H. discriminate H.
Qed.

(** C10, amended.  A field that is absent or null is read as the empty
    string: the request is served exactly as the one in which the field is
    set to "", with the same response and the same state after, and each
    handler run on it does the same in any state.  So a contact payload
    without name or email, each of whose three fields is a text, absent,
    null or otherwise false, gets the 400 answer of the validation, and not
    the 500; and a chat payload without message gets the 400 answer "Empty
    message"; the store is left as it was. *)
Theorem missing_field_reads_as_empty (d : dict) (w : World) :
  (forall k p, missing d k ->
     serve (post p d) w = serve (post p (dict_set d k (PyStr ""))) w
     /\ submit_contact (post p d) w =
        submit_contact (post p (dict_set d k (PyStr ""))) w
     /\ chat_send (post p d) w =
        chat_send (post p (dict_set d k (PyStr ""))) w)
  /\ (missing d "name" \/ missing d "email" ->
      field_text d "name" <> None ->
      field_text d "email" <> None ->
      field_text d "message" <> None ->
      fst (serve (post "/submit_contact" d) w) =
        Json 400 [("ok", PyBool false);
                  ("error", PyStr "Name and email are required.")]
      /\ appdata (snd (serve (post "/submit_contact" d) w)) = appdata w)
  /\ (missing d "message" ->
      fst (serve (post "/chat_send" d) w) =
        Json 400 [("ok", PyBool false); ("error", PyStr "Empty message")]
      /\ appdata (snd (serve (post "/chat_send" d) w)) = appdata w).
Proof.
  split.
  { intros k p Hk.
    assert (H : forall k', field_text d k' =
                           field_text (dict_set d k (PyStr "")) k')
      by (intros k'; symmetry; now apply field_text_missing).
    split; [now apply serve_fields|].
    split; [now apply submit_contact_fields | now apply chat_send_fields]. }
  split.
  { intros Hmiss Hn He Hm. unfold post.
    rewrite serve_submit_contact, submit_contact_dict.
    destruct (field_text d "name") as [n|] eqn:En; [|congruence].
    destruct (field_text d "email") as [e|] eqn:Ee; [|congruence].
    destruct (field_text d "message") as [msg|]; [|congruence].
    assert (Hb : is_empty (strip n) || is_empty (strip e) = true).
    { destruct Hmiss as [H|H]; apply missing_field_text in H.
      - rewrite En in H. injection H as ->. reflexivity.
      - rewrite Ee in H. injection H as ->. apply orb_true_r. }
    rewrite Hb. split; reflexivity. }
  intros Hmiss. unfold post.
  rewrite serve_chat_send, chat_send_dict, (missing_field_text d "message" Hmiss).
  split; reflexivity.
Qed.

Lemma missing_field_reads_as_empty_witness :
  fst (serve (post "/submit_contact" [("email", PyStr "ada@example.org")]) started)
    = Json 400 [("ok", PyBool false);
                ("error", PyStr "Name and email are required.")]
  /\ fst (serve (post "/chat_send" [("message", PyNone)]) started)
     = Json 400 [("ok", PyBool false); ("error", PyStr "Empty message")]
  /\ serve (post "/chat_send" [("message", PyNone)]) started
     = serve (post "/chat_send" [("message", PyStr ""); ("message", PyNone)])
         started.
Proof.
  destruct (missing_field_reads_as_empty [("email", PyStr "ada@example.org")]
              started) as (_ & Hcontact & _).
  destruct (missing_field_reads_as_empty [("message", PyNone)] started)
    as (Hsame & _ & Hchat).
  split; [|split].
  - apply Hcontact; [left; left; reflexivity | discriminate ..].
  - apply Hchat. right. reflexivity.
  - apply (Hsame "message" "/chat_send"). right. reflexivity.
Defined.

(* ================================================================== *)
(** ** Invariants of the running application *)

Lemma rstrip_cons (c : ascii) (s : string) :
  rstrip (String c s) =
  match rstrip s with
  | EmptyString => if isspace c then EmptyString else String c EmptyString
  | r => String c r
  end.
Proof. reflexivity. Qed.

Lemma rstrip_idem (s : string) : rstrip (rstrip s) = rstrip s.
Proof.
  induction s as [|c s IH]; [reflexivity|]. rewrite (rstrip_cons c s).
  destruct (rstrip s) as [|c' r] eqn:E.
  - destruct (isspace c) eqn:Ec; [reflexivity|].
    rewrite rstrip_cons. cbn [rstrip]. now rewrite Ec.
  - rewrite rstrip_cons. now rewrite IH.
Qed.

Lemma lstrip_head (s : string) :
  lstrip s = "" \/ exists c s', lstrip s = String c s' /\ isspace c = false.
Proof.
  induction s as [|c s IH]; [now left|]. cbn [lstrip].
  destruct (isspace c) eqn:E; [exact IH|]. right. eauto.
Qed.

Lemma rstrip_head (c : ascii) (s : string) :
  isspace c = false -> exists r, rstrip (String c s) = String c r.
Proof.
  intros E. rewrite rstrip_cons. destruct (rstrip s); rewrite ?E; eauto.
Qed.

(** Trimming a trimmed text changes nothing. *)
Lemma strip_idem (s : string) : strip (strip s) = strip s.
Proof.
  unfold strip. destruct (lstrip_head s) as [->|(c & s' & -> & E)];
    [reflexivity|].
  destruct (rstrip_head c s' E) as [r Hr]. rewrite Hr.
  cbn [lstrip]. rewrite E, <- Hr. apply rstrip_idem.
Qed.

Lemma submit_contact_step (r : Request) (w : World) :
  store_step (appdata w) (appdata (snd (submit_contact r (app_context w)))).
Proof.
  destruct r as [m p [data|]];
    [destruct data as [| | | | |l|d]|];
    try (rewrite submit_contact_no_dict by not_a_dict; apply step_none).
  rewrite submit_contact_dict.
  destruct (field_text d "name") as [n|],
           (field_text d "email") as [e|],
           (field_text d "message") as [msg|];
    try apply step_none.
  destruct (is_empty (strip n)) eqn:En; [apply step_none|].
  destruct (is_empty (strip e)) eqn:Ee; [apply step_none|].
  cbn [orb].
  destruct (contacts (appdata w)) as [t|] eqn:Ht; [|apply step_none].
  destruct (rowid_full t) eqn:Hfull; [apply step_none|].
  cbn [snd appdata].
  apply step_contact;
    auto using strip_idem; now apply is_empty_false.
Qed.

Lemma chat_send_step (r : Request) (w : World) :
  store_step (appdata w) (appdata (snd (chat_send r (app_context w)))).
Proof.
  destruct r as [m p [data|]];
    [destruct data as [| | | | |l|d]|];
    try (rewrite chat_send_no_dict by not_a_dict; apply step_none).
  rewrite chat_send_dict.
  destruct (field_text d "message") as [s|]; [|apply step_none].
  destruct (is_empty (strip s)) eqn:Es; [apply step_none|].
  destruct (chats (appdata w)) as [t|] eqn:Ht; [|apply step_none].
  cbv zeta. destruct (rowid_full t) eqn:Hfull; [apply step_none|].
  destruct (rowid_full (table_insert t _)) eqn:Hfull'; cbn [snd appdata].
  - apply step_user; auto using strip_idem. now apply is_empty_false.
  - apply step_chat; auto using strip_idem. now apply is_empty_false.
Qed.

(** Whatever the request, the store takes one of the four steps. *)
Lemma serve_step (r : Request) (w : World) :
  store_step (appdata w) (appdata (snd (serve r w))).
Proof.
  rewrite serve_appdata.
  destruct (match_request r) as [status|endpoint]; [apply step_none|].
  unfold view_functions.
  repeat match goal with
         | |- context [if String.eqb endpoint ?s then _ else _] =>
             destruct (String.eqb endpoint s)
         end;
    try (rewrite static_view by (simpl; tauto); apply step_none);
    try (rewrite static_file_view; apply step_none).
  - apply submit_contact_step.
  - apply chat_send_step.
Qed.

Lemma serve_closes (r : Request) (w : World) : g_database (snd (serve r w)) = None.
Proof.
  unfold serve. destruct (match_request r) as [status|endpoint];
    [reflexivity|].
  destruct (view_functions endpoint r (app_context w)) as [[resp|e] w'];
    reflexivity.
Qed.

Lemma sorted_snoc (l : list Z) (i : Z) :
  StronglySorted Z.lt l -> Forall (fun j => (j < i)%Z) l ->
  StronglySorted Z.lt (l ++ [i]).
Proof.
  induction 1 as [|j l Hs IH Hj]; intros Hb; simpl.
  - repeat constructor.
  - inversion Hb; subst. constructor; [auto|].
    apply Forall_app. split; [exact Hj | now constructor].
Qed.

(** An insert keeps the rowids in order: the new one is above all, and no
    more than the largest rowid. *)
Lemma rowids_ok_insert {R : Type} (t : Table R) (r : R) :
  rowid_full t = false -> rowids_ok t -> rowids_ok (table_insert t r).
Proof.
  intros Hroom (Hs & Hb & Hmax). apply rowid_full_false in Hroom.
  unfold rowids_ok, table_insert. cbn [rows seq].
  rewrite map_app. cbn [map fst].
  assert (Hi : (seq t < next_rowid t)%Z) by (unfold next_rowid; lia).
  assert (Hp : (0 < next_rowid t)%Z).
  { pose proof (max_rowid_nonneg t). unfold next_rowid. lia. }
  split; [|split; [|exact Hroom]].
  - apply sorted_snoc; [exact Hs|].
    eapply Forall_impl; [|exact Hb]. simpl. lia.
  - apply Forall_app. split.
    + eapply Forall_impl; [|exact Hb]. simpl. lia.
    + constructor; [lia | constructor].
Qed.

Lemma chat_log_user (l : list Chat) (message now : string) :
  message <> "" -> strip message = message ->
  chat_log l -> chat_log (l ++ [mkChat "user" message now]).
Proof.
  intros Hm Hs. induction 1; simpl.
  - apply log_user; [assumption .. | constructor].
  - apply log_turn; assumption.
  - apply log_user; assumption.
Qed.

Lemma chat_log_turn (l : list Chat) (message now now' : string) :
  message <> "" -> strip message = message ->
  chat_log l ->
  chat_log (l ++ [mkChat "user" message now;
                  mkChat "bot" (bot_reply message) now']).
Proof.
  intros Hm Hs. induction 1; simpl.
  - apply log_turn; [assumption .. | constructor].
  - apply log_turn; assumption.
  - apply log_user; assumption.
Qed.

Lemma valid_store_step (s s' : Store) :
  store_step s s' -> valid_store s -> valid_store s'.
Proof.
  intros Hstep [Hc Hm]. destruct Hstep as
    [s | s t name email message now Ht Hroom Hn He Hn' He' Hm'
       | s t message now Ht Hroom Hne Hs
       | s t message now now' Ht Hroom Hroom' Hne Hs]; [now split | | |].
  - split; [|exact Hm]. rewrite Ht in Hc. destruct Hc as [Hids Hrows].
    cbn [contacts table_ok]. split; [now apply rowids_ok_insert|].
    unfold table_insert. cbn [rows]. rewrite map_app. cbn [map snd].
    apply Forall_app. split; [exact Hrows|].
    constructor; [|constructor]. repeat split; assumption.
  - split; [exact Hc|]. rewrite Ht in Hm. destruct Hm as [Hids Hrows].
    cbn [chats table_ok]. split; [now apply rowids_ok_insert|].
    unfold table_insert. cbn [rows]. rewrite map_app. cbn [map snd].
    now apply chat_log_user.
  - split; [exact Hc|]. rewrite Ht in Hm. destruct Hm as [Hids Hrows].
    cbn [chats table_ok].
    split; [apply rowids_ok_insert; [exact Hroom'|];
            now apply rowids_ok_insert|].
    rewrite table_insert_twice. cbn [rows]. rewrite map_app. cbn [map snd].
    now apply chat_log_turn.
Qed.

Lemma initialised_step (s s' : Store) :
  store_step s s' -> initialised s -> initialised s'.
Proof.
  intros Hstep [Hc Hm]. destruct Hstep; cbn; split; try assumption;
    discriminate.
Qed.

Lemma rowids_ok_empty {R : Type} : rowids_ok (@empty_table R).
Proof.
  unfold rowids_ok. cbn. repeat split; try constructor.
  intros H. discriminate H.
Qed.

Lemma valid_store_startup (w : World) :
  valid_store (appdata w) -> valid_store (appdata (snd (startup w))).
Proof.
  intros [Hc Hm]. rewrite startup_run. cbn [snd appdata].
  split; cbn [contacts chats].
  - destruct (contacts (appdata w)); [exact Hc|].
    split; [apply rowids_ok_empty | constructor].
  - destruct (chats (appdata w)); [exact Hm|].
    split; [apply rowids_ok_empty | constructor].
Qed.

Lemma running_invariant (w : World) :
  reachable w ->
  initialised (appdata w) /\ valid_store (appdata w) /\ g_database w = None.
Proof.
  induction 1 as [w Hv | r w Hr (Hi & Hv & Hg)].
  - split; [apply startup_initialised|].
    split; [now apply valid_store_startup | now rewrite startup_run].
  - pose proof (serve_step r w) as Hstep.
    split; [now apply (initialised_step _ _ Hstep)|].
    split; [now apply (valid_store_step _ _ Hstep) | apply serve_closes].
Qed.

(** X1.  In every state of the running application both tables are there,
    no connection is left open between requests, every stored inquiry has a
    trimmed, non-empty name and email, every "bot" row of [chats] holds the
    reply to the trimmed, non-empty message of the "user" row right before
    it (a "user" row may lack its reply: the INSERT of a reply can fail
    after the user's row is committed), and rowids grow along each table. *)
Theorem reachable_invariant (w : World) :
  reachable w ->
  (exists tc tm, contacts (appdata w) = Some tc /\ chats (appdata w) = Some tm)
  /\ g_database w = None
  /\ Forall valid_contact (map snd (rows_of (contacts (appdata w))))
  /\ chat_log (map snd (rows_of (chats (appdata w))))
  /\ StronglySorted Z.lt (map fst (rows_of (contacts (appdata w))))
  /\ StronglySorted Z.lt (map fst (rows_of (chats (appdata w)))).
Proof.
  intros Hr. destruct (running_invariant w Hr) as ([Hc Hm] & [Vc Vm] & Hg).
  destruct (contacts (appdata w)) as [tc|]; [|congruence].
  destruct (chats (appdata w)) as [tm|]; [|congruence].
  destruct Vc as [(Sc & _ & _) Rc], Vm as [(Sm & _ & _) Rm].
  split; [eauto|]. split; [exact Hg|]. cbn [rows_of]. auto.
Qed.

Lemma valid_store_empty : valid_store (mkStore None None).
Proof. split; exact I. Qed.

Lemma reachable_started : reachable started.
Proof. apply (reach_start first_start). exact valid_store_empty. Qed.

Lemma reachable_after_two_posts : reachable after_two_posts.
Proof. do 2 apply reach_serve. exact reachable_started. Qed.

Lemma valid_store_one_rowid_left : valid_store (appdata one_rowid_left).
Proof.
  split; cbn.
  - split; [apply rowids_ok_empty | constructor].
  - split.
    + unfold rowids_ok. cbn. repeat split;
        repeat constructor; try (intros H; discriminate H).
    + apply (log_turn "hi"); [discriminate | reflexivity | constructor].
Qed.

(** The state after a message sent with one rowid left: its row has no
    reply. *)
Lemma reachable_half_turn :
  reachable (snd (serve (post "/chat_send" [("message", PyStr "hello")])
                    (snd (startup one_rowid_left)))).
Proof.
  apply reach_serve, reach_start. exact valid_store_one_rowid_left.
Qed.

Lemma reachable_invariant_witness :
  map snd (rows_of (chats (appdata after_two_posts)))
  = [mkChat "user" "Can you help?" "2024-01-01T00:00:00";
     mkChat "bot" help_reply "2024-01-01T00:00:00"]
  /\ chat_log (map snd (rows_of (chats (appdata after_two_posts))))
  /\ chat_log
       (map snd (rows_of (chats (appdata
          (snd (serve (post "/chat_send" [("message", PyStr "hello")])
                  (snd (startup one_rowid_left)))))))).
Proof.
  split; [reflexivity|]. split.
  - exact (proj1 (proj2 (proj2 (proj2
             (reachable_invariant after_two_posts
                reachable_after_two_posts))))).
  - exact (proj1 (proj2 (proj2 (proj2
             (reachable_invariant _ reachable_half_turn))))).
Defined.

Lemma sorted_nodup (l : list Z) : StronglySorted Z.lt l -> NoDup l.
Proof.
  induction 1 as [|i l Hs IH Hi]; constructor; [|exact IH].
  intros Hin. rewrite Forall_forall in Hi. specialize (Hi i Hin). lia.
Qed.

(** X2.  In every state of the running application the rowids of each
    table are unique, positive and no more than SQLite's largest rowid,
    2^63 - 1. *)
Theorem rowids_unique (w : World) :
  reachable w ->
  NoDup (map fst (rows_of (contacts (appdata w))))
  /\ NoDup (map fst (rows_of (chats (appdata w))))
  /\ Forall (fun i => 0 < i <= sqlite_max_rowid)%Z
       (map fst (rows_of (contacts (appdata w)))
        ++ map fst (rows_of (chats (appdata w)))).
Proof.
  intros Hr. destruct (running_invariant w Hr) as (_ & [Hc Hm] & _).
  assert (Hb : forall (R : Type) (t : Table R),
             rowids_ok t ->
             Forall (fun i => 0 < i <= sqlite_max_rowid)%Z
               (map fst (rows t))).
  { intros R t (_ & Hb & Hmax). eapply Forall_impl; [|exact Hb].
    simpl. lia. }
  split; [|split].
  - destruct (contacts (appdata w)) as [t|]; [|constructor].
    destruct Hc as [[Hs _] _]. now apply sorted_nodup.
  - destruct (chats (appdata w)) as [t|]; [|constructor].
    destruct Hm as [[Hs _] _]. now apply sorted_nodup.
  - apply Forall_app. split.
    + destruct (contacts (appdata w)) as [t|]; [|constructor].
      destruct Hc as [Hc _]. now apply Hb.
    + destruct (chats (appdata w)) as [t|]; [|constructor].
      destruct Hm as [Hm _]. now apply Hb.
Qed.

Lemma rowids_unique_witness :
  map fst (rows_of (chats (appdata after_two_posts))) = [1%Z; 2%Z]
  /\ map fst (rows_of (contacts (appdata after_two_posts))) = [1%Z]
  /\ NoDup (map fst (rows_of (chats (appdata after_two_posts)))).
Proof.
  split; [reflexivity|]. split; [reflexivity|].
  exact (proj1 (proj2 (rowids_unique after_two_posts
                         reachable_after_two_posts))).
Defined.

(** X3.  In the running application the two handlers need no assumption on
    the presence of the tables: they are there, and as long as [chats] has
    two rowids left a chat message that is not empty after trimming is
    answered with 200 and its reply and adds its turn, and as long as
    [contacts] has one left a contact payload with a name and an email is
    answered with 200 and adds its row. *)
Theorem running_handlers_accept (w : World) (d : dict) :
  reachable w ->
  exists tc tm,
    contacts (appdata w) = Some tc /\ chats (appdata w) = Some tm
    /\ (forall s, field_text d "message" = Some s -> strip s <> "" ->
        (next_rowid tm < sqlite_max_rowid)%Z ->
        fst (serve (post "/chat_send" d) w) = chat_200 (bot_reply (strip s))
        /\ rows_of (chats (appdata (snd (serve (post "/chat_send" d) w))))
           = rows tm
             ++ [(next_rowid tm,
                  mkChat "user" (strip s) (utcnow w (ticks w)));
                 ((next_rowid tm + 1)%Z,
                  mkChat "bot" (bot_reply (strip s))
                    (utcnow w (S (ticks w))))])
    /\ (forall n e msg,
          field_text d "name" = Some n -> field_text d "email" = Some e ->
          field_text d "message" = Some msg ->
          strip n <> "" -> strip e <> "" ->
          (next_rowid tc <= sqlite_max_rowid)%Z ->
          fst (serve (post "/submit_contact" d) w) = contact_200
          /\ rows_of (contacts
                        (appdata (snd (serve (post "/submit_contact" d) w))))
             = rows tc
               ++ [(next_rowid tc,
                    mkContact (strip n) (strip e) (strip msg)
                      (utcnow w (ticks w)))]).
Proof.
  intros Hr. destruct (running_invariant w Hr) as ([Hc Hm] & _ & _).
  destruct (contacts (appdata w)) as [tc|] eqn:Htc; [|congruence].
  destruct (chats (appdata w)) as [tm|] eqn:Htm; [|congruence].
  exists tc, tm. split; [reflexivity|]. split; [reflexivity|]. split.
  - intros s Hs Hs' Hroom.
    rewrite (serve_chat_valid w d s tm Hs Hs' Htm Hroom).
    cbn [fst snd appdata chats]. split; [reflexivity|].
    now rewrite table_insert_twice.
  - intros n e msg Hn He Hmsg Hn' He' Hroom. unfold post.
    rewrite serve_submit_contact, submit_contact_dict, Hn, He, Hmsg, Htc.
    apply is_empty_false in Hn', He'. rewrite Hn', He'.
    apply rowid_full_false in Hroom. rewrite Hroom.
    cbn [orb served fst snd close_connection appdata contacts rows_of].
    split; reflexivity.
Qed.

Lemma running_handlers_accept_witness :
  fst (serve (post "/chat_send" [("message", PyStr "pricing?")])
         after_two_posts)
  = chat_200 hiring_reply.
Proof.
  destruct (running_handlers_accept after_two_posts
              [("message", PyStr "pricing?")] reachable_after_two_posts)
    as (tc & tm & Htc & Htm & Hchat & _).
  vm_compute in Htm. injection Htm as <-.
  apply (Hchat "pricing?"); [reflexivity | | reflexivity].
  intros H; vm_compute in H; discriminate H.
Defined.

(** X4.  A message that contains "hire", in any letter case, is greeted:
    "hi" occurs in "hire", so the first rule answers it.  The hiring reply
    is given to no message without "pricing". *)
Theorem hire_is_greeted (message : string) :
  (contains "hire" (lower message) = true ->
   bot_reply message = greeting_reply)
  /\ (bot_reply message = hiring_reply ->
      contains "pricing" (lower message) = true).
Proof.
  unfold bot_reply. cbn [existsb]. set (m := lower message).
  split.
  - intros H. now rewrite (contains_app "hi" "re" m H).
  - destruct (contains "hi" m) eqn:Ehi; cbn [orb].
    { intros H. vm_compute in H. discriminate H. }
    assert (Ehire : contains "hire" m = false).
    { destruct (contains "hire" m) eqn:E; [|reflexivity].
      rewrite (contains_app "hi" "re" m E) in Ehi. discriminate Ehi. }
    assert (Ehireme : contains "hire me" m = false).
    { destruct (contains "hire me" m) eqn:E; [|reflexivity].
      rewrite (contains_hire_me m E) in Ehire. discriminate Ehire. }
    rewrite Ehire, Ehireme. cbn [orb].
    repeat match goal with
           | |- context [if ?b then _ else _] => destruct b eqn:?
           end;
      try reflexivity; intros H; vm_compute in H; discriminate H.
Qed.

Lemma hire_is_greeted_witness :
  bot_reply "I want to HIRE you" = greeting_reply
  /\ contains "pricing" (lower "What is your Pricing?") = true.
Proof.
  split.
  - apply (proj1 (hire_is_greeted "I want to HIRE you")). reflexivity.
  - apply (proj2 (hire_is_greeted "What is your Pricing?")). reflexivity.
Defined.

(** X5.  A body that is no JSON object, or an object with a field that is
    neither text nor false, gets the answer of the [except] branch: status
    500, "Server error", and nothing is stored. *)
Theorem malformed_payload_is_server_error (b : option pyval) (w : World) :
  ((forall d, b <> Some (PyDict d)) ->
   serve (mkRequest POST "/submit_contact" b) w =
     (server_500, close_connection w)
   /\ serve (mkRequest POST "/chat_send" b) w =
     (server_500, close_connection w))
  /\ (forall d, b = Some (PyDict d) ->
        (field_text d "name" = None \/ field_text d "email" = None
         \/ field_text d "message" = None ->
         serve (mkRequest POST "/submit_contact" b) w =
           (server_500, close_connection w))
        /\ (field_text d "message" = None ->
            serve (mkRequest POST "/chat_send" b) w =
              (server_500, close_connection w))).
Proof.
  split.
  - intros H. rewrite serve_submit_contact, serve_chat_send.
    rewrite submit_contact_no_dict, chat_send_no_dict by exact H.
    split; reflexivity.
  - intros d ->. split.
    + intros H. rewrite serve_submit_contact, submit_contact_dict.
      destruct (field_text d "name"), (field_text d "email"),
        (field_text d "message"); try reflexivity.
      destruct H as [H|[H|H]]; discriminate H.
    + intros H. rewrite serve_chat_send, chat_send_dict, H. reflexivity.
Qed.

Lemma malformed_payload_is_server_error_witness :
  serve (mkRequest POST "/chat_send" (Some (PyList []))) started =
    (server_500, started)
  /\ serve (post "/submit_contact" [("name", PyStr "Ada"); ("email", PyInt 7)])
       started = (server_500, started).
Proof.
  split.
  - apply (proj1 (malformed_payload_is_server_error (Some (PyList [])) started)).
    intros d H. discriminate H.
  - apply (proj2 (malformed_payload_is_server_error
                    (Some (PyDict [("name", PyStr "Ada"); ("email", PyInt 7)]))
                    started) _ eq_refl).
    right. left. reflexivity.
Defined.

(** X6.  The four navbar routes answer GET with a redirect (302) to their
    section of the landing page, whatever the body and the state, and leave
    the store as it was; they answer POST with 405, as the two POST-only
    paths of the handlers answer GET. *)
Theorem navbar_routes_redirect (w : World) (body : option pyval) :
  fst (serve (mkRequest GET "/projects" body) w) = Redirect "/#projects" 302
  /\ fst (serve (mkRequest GET "/expertise" body) w)
     = Redirect "/#expertise" 302
  /\ fst (serve (mkRequest GET "/about" body) w) = Redirect "/#about" 302
  /\ fst (serve (mkRequest GET "/contact" body) w) = Redirect "/#contact" 302
  /\ (forall section,
        In section ["/projects"; "/expertise"; "/about"; "/contact"] ->
        appdata (snd (serve (mkRequest GET section body) w)) = appdata w
        /\ serve (mkRequest POST section body) w
           = (Abort 405, close_connection w))
  /\ serve (mkRequest GET "/submit_contact" body) w
     = (Abort 405, close_connection w)
  /\ serve (mkRequest GET "/chat_send" body) w
     = (Abort 405, close_connection w).
Proof.
  repeat split;
    repeat match goal with
           | H : In _ _ |- _ => destruct H as [<-|H]
           end; try contradiction; reflexivity.
Qed.

Lemma navbar_routes_redirect_witness :
  serve (mkRequest POST "/about" None) started = (Abort 405, started).
Proof.
  destruct (navbar_routes_redirect started None) as (_ & _ & _ & _ & H & _).
  apply (H "/about"). simpl. tauto.
Defined.

(* ================================================================== *)
(** ** What a request can do *)

Lemma match_request_inv (r : Request) (endpoint : string) :
  match_request r = inr endpoint ->
  (endpoint = "static" /\ req_method r = GET)
  \/ exists methods,
       In (req_path r, methods, endpoint) url_map
       /\ In (req_method r) methods.
Proof.
  unfold match_request. destruct (static_filename (req_path r)).
  - destruct (req_method r); cbn [method_eqb]; [|discriminate].
    intros [= <-]. now left.
  - destruct (find _ url_map) as [[[rule methods] ep]|] eqn:F;
      [|discriminate].
    destruct (existsb _ methods) eqn:E; [|discriminate].
    intros [= <-]. apply find_some in F as [Hin Hf]. cbn [fst] in Hf.
    apply String.eqb_eq in Hf. subst rule. right. exists methods.
    split; [exact Hin|].
    apply existsb_exists in E as (m & Hm & Heq).
    destruct (req_method r), m; try discriminate Heq; exact Hm.
Qed.

Lemma not_json_200 (resp : Response) :
  match resp with Json 200 _ => False | _ => True end ->
  forall body, resp <> Json 200 body.
Proof. intros H body ->. exact H. Qed.

Lemma submit_contact_effect (b : option pyval) (w : World) :
  let r := mkRequest POST "/submit_contact" b in
  effect r w (fst (served (submit_contact r (app_context w))))
             (snd (served (submit_contact r (app_context w)))).
Proof.
  intros r. subst r.
  destruct b as [data|]; [destruct data as [| | | | |l|d]|];
    try (rewrite submit_contact_no_dict by not_a_dict;
         apply effect_none, not_json_200; exact I).
  rewrite submit_contact_dict.
  destruct (field_text d "name") as [n|],
           (field_text d "email") as [e|],
           (field_text d "message") as [msg|];
    try (apply effect_none, not_json_200; exact I).
  destruct (is_empty (strip n)) eqn:En;
    [apply effect_none, not_json_200; exact I|].
  destruct (is_empty (strip e)) eqn:Ee;
    [apply effect_none, not_json_200; exact I|].
  cbn [orb].
  destruct (contacts (appdata w)) as [t|] eqn:Ht;
    [destruct (rowid_full t) eqn:Hfull|];
    unfold served, close_connection; cbn [fst snd appdata utcnow ticks].
  - apply effect_refused; [reflexivity|]. left.
    split; [reflexivity|]. now rewrite Ht.
  - apply effect_contact; try reflexivity; try assumption;
      now apply is_empty_false.
  - apply effect_refused; [reflexivity|]. left.
    split; [reflexivity|]. now rewrite Ht.
Qed.

Lemma chat_send_effect (b : option pyval) (w : World) :
  let r := mkRequest POST "/chat_send" b in
  effect r w (fst (served (chat_send r (app_context w))))
             (snd (served (chat_send r (app_context w)))).
Proof.
  intros r. subst r.
  destruct b as [data|]; [destruct data as [| | | | |l|d]|];
    try (rewrite chat_send_no_dict by not_a_dict;
         apply effect_none, not_json_200; exact I).
  rewrite chat_send_dict.
  destruct (field_text d "message") as [s|];
    [|apply effect_none, not_json_200; exact I].
  destruct (is_empty (strip s)) eqn:Es;
    [apply effect_none, not_json_200; exact I|].
  destruct (chats (appdata w)) as [t|] eqn:Ht; cbv zeta;
    [destruct (rowid_full t) eqn:Hfull;
     [|destruct (rowid_full (table_insert t _)) eqn:Hfull']|];
    unfold served, close_connection; cbn [fst snd appdata utcnow ticks].
  - apply effect_refused; [reflexivity|]. right.
    split; [reflexivity|]. now rewrite Ht.
  - apply effect_half_turn; try reflexivity; try assumption.
    now apply is_empty_false.
  - apply effect_chat; try reflexivity; try assumption.
    now apply is_empty_false.
  - apply effect_refused; [reflexivity|]. right.
    split; [reflexivity|]. now rewrite Ht.
Qed.

(** Every request has one of the five effects. *)
Lemma serve_effect (r : Request) (w : World) :
  effect r w (fst (serve r w)) (snd (serve r w)).
Proof.
  destruct (match_request r) as [status|endpoint] eqn:Hm.
  - unfold serve. rewrite Hm. apply effect_none, not_json_200. exact I.
  - destruct (match_request_inv r endpoint Hm)
      as [[-> Hget]|(methods & Hin & Hmeth)].
    + unfold serve. rewrite Hm.
      change (view_functions "static" r (app_context w))
        with (static r (app_context w)).
      unfold static. destruct (static_filename (req_path r));
        apply effect_none, not_json_200; exact I.
    + destruct r as [m p b]. cbn [req_path req_method] in *.
      unfold url_map in Hin. cbn [In] in Hin.
      repeat (destruct Hin as [Hin|Hin];
              [injection Hin as <- <- <-;
               destruct Hmeth as [<-|[]]|]);
        try contradiction;
        try (apply effect_none, not_json_200; exact I).
      * rewrite serve_submit_contact. apply submit_contact_effect.
      * rewrite serve_chat_send. apply chat_send_effect.
Qed.

(** X7.  Only a POST to a handler writes.  A GET request changes nothing:
    no row, no clock reading, only the teardown.  A request answered with
    anything but a JSON 200 or a JSON 500 leaves the store as it was.  A
    request answered with a JSON 500 leaves [contacts] as it was, and
    [chats] too unless it is a POST to the chat path that stored the "user"
    row and failed on the reply.  A request answered with a JSON 200 is a
    POST to one of the two handlers, and it stored its inquiry, or its chat
    turn of a "user" row and a "bot" row. *)
Theorem only_accepted_posts_write (r : Request) (w : World) :
  (req_method r = GET -> snd (serve r w) = close_connection w)
  /\ ((forall body, fst (serve r w) <> Json 200 body) ->
      (forall body, fst (serve r w) <> Json 500 body) ->
      appdata (snd (serve r w)) = appdata w)
  /\ ((forall body, fst (serve r w) <> Json 200 body) ->
      contacts (appdata (snd (serve r w))) = contacts (appdata w)
      /\ (chats (appdata (snd (serve r w))) = chats (appdata w)
          \/ (req_method r = POST /\ req_path r = "/chat_send"
              /\ exists t u,
                   chats (appdata w) = Some t
                   /\ chat_sender u = "user"
                   /\ chats (appdata (snd (serve r w))) =
                      Some (table_insert t u))))
  /\ (forall body, fst (serve r w) = Json 200 body ->
      req_method r = POST
      /\ ((req_path r = "/submit_contact"
           /\ exists t c,
                contacts (appdata w) = Some t
                /\ appdata (snd (serve r w)) =
                   mkStore (Some (table_insert t c)) (chats (appdata w)))
          \/ (req_path r = "/chat_send"
              /\ exists t u b,
                   chats (appdata w) = Some t
                   /\ chat_sender u = "user" /\ chat_sender b = "bot"
                   /\ appdata (snd (serve r w)) =
                      mkStore (contacts (appdata w))
                        (Some (table_insert (table_insert t u) b))))).
Proof.
  pose proof (serve_effect r w) as H.
  remember (fst (serve r w)) as resp eqn:Eresp.
  remember (snd (serve r w)) as w' eqn:Ew'.
  destruct H as [resp Hno | Hpost Hmiss
                 | t name email message Hpost Hpath Ht Hroom Hn He
                 | t message Hpost Hpath Ht Hroom Hfull Hm
                 | t message Hpost Hpath Ht Hroom Hroom' Hm].
  - split; [reflexivity|]. split; [reflexivity|].
    split; [intros _; split; [reflexivity | now left]|].
    intros body ->. exfalso. now apply (Hno body).
  - split; [intros Hget; rewrite Hget in Hpost; discriminate Hpost|].
    split; [reflexivity|].
    split; [intros _; split; [reflexivity | now left]|].
    intros body Hb. discriminate Hb.
  - split; [intros Hget; rewrite Hget in Hpost; discriminate Hpost|].
    split; [intros Hno; exfalso; now apply (Hno _ eq_refl)|].
    split; [intros Hno; exfalso; now apply (Hno _ eq_refl)|].
    intros body _. split; [exact Hpost|]. left. split; [exact Hpath|].
    do 2 eexists. split; [exact Ht | reflexivity].
  - split; [intros Hget; rewrite Hget in Hpost; discriminate Hpost|].
    split; [intros _ Hno; exfalso; now apply (Hno _ eq_refl)|].
    split.
    + intros _. split; [reflexivity|]. right.
      split; [exact Hpost|]. split; [exact Hpath|].
      exists t, (mkChat "user" message (utcnow w (ticks w))).
      split; [exact Ht|]. split; reflexivity.
    + intros body Hb. discriminate Hb.
  - split; [intros Hget; rewrite Hget in Hpost; discriminate Hpost|].
    split; [intros Hno; exfalso; now apply (Hno _ eq_refl)|].
    split; [intros Hno; exfalso; now apply (Hno _ eq_refl)|].
    intros body _. split; [exact Hpost|]. right. split; [exact Hpath|].
    exists t, (mkChat "user" message (utcnow w (ticks w))),
      (mkChat "bot" (bot_reply message) (utcnow w (S (ticks w)))).
    split; [exact Ht|]. split; [reflexivity|]. split; reflexivity.
Qed.

Lemma only_accepted_posts_write_witness :
  snd (serve (get "/chat_send") started) = started
  /\ appdata (snd (serve (post "/chat_send" [("message", PyStr "  ")]) started))
     = appdata started
  /\ contacts (appdata (snd (serve (post "/chat_send"
                                      [("message", PyStr "hello")])
                               one_rowid_left)))
     = contacts (appdata one_rowid_left)
  /\ req_path (post "/chat_send" [("message", PyStr "work?")]) = "/chat_send".
Proof.
  split; [|split; [|split]].
  - apply (proj1 (only_accepted_posts_write (get "/chat_send") started)).
    reflexivity.
  - apply (proj1 (proj2 (only_accepted_posts_write
                           (post "/chat_send" [("message", PyStr "  ")])
                           started)));
      intros body H; discriminate H.
  - apply (proj1 (proj2 (proj2 (only_accepted_posts_write
                           (post "/chat_send" [("message", PyStr "hello")])
                           one_rowid_left)))).
    intros body H. discriminate H.
  - destruct (proj2 (proj2 (proj2 (only_accepted_posts_write
                (post "/chat_send" [("message", PyStr "work?")]) started)))
                _ eq_refl) as [_ [[H _]|[H _]]]; [discriminate H | exact H].
Defined.

(* ================================================================== *)
(** ** The handlers never raise *)

Ltac run_db w :=
  destruct w as [? [?|] ? ?];
  unfold bind, get_db, cursor, ret, utcnow_isoformat, execute, commit;
  cbn [g_database appdata utcnow ticks run_statement].

Lemma submit_contact_answers (r : Request) (w : World) :
  exists resp,
    fst (submit_contact r w) = Return resp /\ In resp contact_answers.
Proof.
  unfold contact_answers.
  destruct r as [m p [data|]]; [destruct data as [| | | | |l|d]|];
    try (exists server_500; split; [reflexivity | simpl; tauto]).
  unfold submit_contact, try_except.
  change (get_json (mkRequest m p (Some (PyDict d)))) with (ret (PyDict d)).
  rewrite bind_ret, read_field.
  destruct (field_text d "name") as [n|];
    [|exists server_500; split; [reflexivity | simpl; tauto]].
  rewrite read_field.
  destruct (field_text d "email") as [e|];
    [|exists server_500; split; [reflexivity | simpl; tauto]].
  rewrite read_field.
  destruct (field_text d "message") as [msg|];
    [|exists server_500; split; [reflexivity | simpl; tauto]].
  destruct (is_empty (strip n) || is_empty (strip e));
    [exists contact_400; split; [reflexivity | simpl; tauto]|].
  run_db w;
    match goal with
    | |- context [contacts ?s] => destruct (contacts s) as [t|]
    end;
    try destruct (rowid_full t);
    eexists; (split; [reflexivity | simpl; tauto]).
Qed.

Lemma chat_send_answers (r : Request) (w : World) :
  exists resp,
    fst (chat_send r w) = Return resp /\ In resp (chat_answers r).
Proof.
  unfold chat_answers.
  destruct r as [m p [data|]]; [destruct data as [| | | | |l|d]|];
    try (exists server_500; split; [reflexivity | simpl; tauto]).
  cbn [req_json].
  unfold chat_send, try_except.
  change (get_json (mkRequest m p (Some (PyDict d)))) with (ret (PyDict d)).
  rewrite bind_ret, read_field.
  destruct (field_text d "message") as [s|];
    [|exists server_500; split; [reflexivity | simpl; tauto]].
  destruct (is_empty (strip s));
    [exists chat_400; split; [reflexivity | simpl; tauto]|].
  run_db w;
    match goal with
    | |- context [chats ?v] => destruct (chats v) as [t|]
    end;
    try (destruct (rowid_full t);
         cbn [g_database appdata utcnow ticks run_statement chats contacts];
         try match goal with
             | |- context [rowid_full ?t'] => destruct (rowid_full t')
             end);
    eexists; (split; [reflexivity | simpl; tauto]).
Qed.

(** X8.  The handlers never raise.  Whatever the request and the state of
    the process, [submit_contact] returns one of its three answers (200
    received, 400 name and email required, 500 server error) and
    [chat_send] one of its three (200 with the reply to the trimmed message,
    400 empty message, 500 server error); in each answer [ok] is true exactly
    when the status is 200. *)
Theorem handlers_always_answer (r : Request) (w : World) :
  (exists resp,
     fst (submit_contact r w) = Return resp /\ In resp contact_answers)
  /\ (exists resp,
        fst (chat_send r w) = Return resp /\ In resp (chat_answers r))
  /\ (forall status body,
        fst (submit_contact r w) = Return (Json status body)
        \/ fst (chat_send r w) = Return (Json status body) ->
        dict_lookup body "ok" = Some (PyBool (status =? 200)%Z)).
Proof.
  split; [apply submit_contact_answers|].
  split; [apply chat_send_answers|].
  intros status body [H|H].
  - destruct (submit_contact_answers r w) as (resp & Hr & Hin).
    rewrite Hr in H. injection H as ->. simpl in Hin.
    destruct Hin as [H|[H|[H|[]]]]; injection H as <- <-; reflexivity.
  - destruct (chat_send_answers r w) as (resp & Hr & Hin).
    rewrite Hr in H. injection H as ->. unfold chat_answers in Hin.
    destruct Hin as [H|[H|Hin]];
      [injection H as <- <-; reflexivity
      |injection H as <- <-; reflexivity|].
    destruct (req_json r) as [[| | | | | |d]|]; try contradiction.
    destruct (field_text d "message"); [|contradiction].
    destruct Hin as [H|[]]. injection H as <- <-. reflexivity.
Qed.

(* ================================================================== *)
(** ** Nothing is left uncommitted *)

Lemma submit_contact_commits (r : Request) (w : World) :
  let w' := snd (submit_contact r (app_context w)) in
  g_database w' = None \/ g_database w' = Some (appdata w').
Proof.
  destruct r as [m p [data|]]; [destruct data as [| | | | |l|d]|];
    try (rewrite submit_contact_no_dict by not_a_dict; now left).
  rewrite submit_contact_dict.
  destruct (field_text d "name"), (field_text d "email"),
    (field_text d "message"); try (now left).
  destruct (_ || _); [now left|].
  destruct (contacts (appdata w)) as [t|]; [destruct (rowid_full t)|];
    now right.
Qed.

Lemma chat_send_commits (r : Request) (w : World) :
  let w' := snd (chat_send r (app_context w)) in
  g_database w' = None \/ g_database w' = Some (appdata w').
Proof.
  destruct r as [m p [data|]]; [destruct data as [| | | | |l|d]|];
    try (rewrite chat_send_no_dict by not_a_dict; now left).
  rewrite chat_send_dict.
  destruct (field_text d "message"); [|now left].
  destruct (is_empty _); [now left|].
  destruct (chats (appdata w)) as [t|]; cbv zeta;
    [destruct (rowid_full t); [|destruct (rowid_full _)]|]; now right.
Qed.

(** X9.  Every view commits what it writes: when a view returns, in a new
    application context, the connection is not open or what it sees is what
    the file holds, so [close_connection] discards no statement.  The same
    holds of [init_db] from any state. *)
Theorem nothing_pending_at_teardown (endpoint : string) (r : Request)
  (w : World) :
  (g_database (snd (view_functions endpoint r (app_context w))) = None
   \/ g_database (snd (view_functions endpoint r (app_context w))) =
      Some (appdata (snd (view_functions endpoint r (app_context w)))))
  /\ g_database (snd (init_db w)) = Some (appdata (snd (init_db w)))
  /\ appdata (snd (serve r w)) =
     match match_request r with
     | inr e => appdata (snd (view_functions e r (app_context w)))
     | inl _ => appdata w
     end.
Proof.
  split; [|split; [now rewrite init_db_run | apply serve_appdata]].
  unfold view_functions.
  repeat match goal with
         | |- context [if String.eqb endpoint ?s then _ else _] =>
             destruct (String.eqb endpoint s)
         end;
    try (rewrite static_view by (simpl; tauto); now left);
    try (rewrite static_file_view; now left).
  - apply submit_contact_commits.
  - apply chat_send_commits.
Qed.

Lemma handlers_always_answer_witness :
  dict_lookup [("ok", PyBool false); ("error", PyStr "Server error")] "ok"
  = Some (PyBool false).
Proof.
  apply (proj2 (proj2 (handlers_always_answer
                         (mkRequest POST "/chat_send" None) first_start))
           500%Z).
  left. reflexivity.
Defined.

(* ================================================================== *)
(** ** Timestamps *)

Lemma sorted_snoc_nat (l : list nat) (n : nat) :
  StronglySorted lt l -> Forall (fun k => k < n) l ->
  StronglySorted lt (l ++ [n]).
Proof.
  induction 1 as [|k l Hs IH Hk]; intros Hb; simpl.
  - repeat constructor.
  - inversion Hb; subst. constructor; [auto|].
    apply Forall_app. split; [exact Hk | now constructor].
Qed.

Lemma stamped_nil (clock : nat -> string) (n : nat) : stamped clock n [].
Proof. exists []. repeat constructor. Qed.

Lemma stamped_mono (clock : nat -> string) (n m : nat) (l : list string) :
  n <= m -> stamped clock n l -> stamped clock m l.
Proof.
  intros Hnm (ks & -> & Hs & Hb). exists ks. repeat split; [exact Hs|].
  eapply Forall_impl; [|exact Hb]. simpl. lia.
Qed.

(** A new reading goes after the ones taken before. *)
Lemma stamped_snoc (clock : nat -> string) (n : nat) (l : list string) :
  stamped clock n l -> stamped clock (S n) (l ++ [clock n]).
Proof.
  intros (ks & -> & Hs & Hb). exists (ks ++ [n]). split; [|split].
  - now rewrite map_app.
  - now apply sorted_snoc_nat.
  - apply Forall_app. split.
    + eapply Forall_impl; [|exact Hb]. simpl. lia.
    + repeat constructor.
Qed.

Lemma stamped_sorted (le : string -> string -> Prop) (clock : nat -> string)
  (n : nat) (l : list string) :
  (forall i j, i < j -> le (clock i) (clock j)) ->
  stamped clock n l -> StronglySorted le l.
Proof.
  intros Hclock (ks & -> & Hs & _).
  induction Hs as [|k ks Hs IH Hk]; simpl; constructor; [exact IH|].
  apply Forall_map. eapply Forall_impl; [|exact Hk]. simpl. auto.
Qed.

Lemma rows_of_create {R : Type} (t : option (Table R)) :
  rows_of (create_if_not_exists t) = rows_of t.
Proof. destruct t; reflexivity. Qed.

Lemma chronological_effect (r : Request) (w w' : World) (resp : Response) :
  effect r w resp w' -> chronological w -> chronological w'.
Proof.
  intros He [Hc Hm].
  destruct He as [resp Hno | Hpost Hmiss
                  | t name email message Hpost Hpath Ht Hroom Hn He
                  | t message Hpost Hpath Ht Hroom Hfull Hne
                  | t message Hpost Hpath Ht Hroom Hroom' Hne].
  - split; assumption.
  - split; cbn [appdata utcnow ticks];
      eapply stamped_mono; try eassumption; lia.
  - split; cbn [appdata utcnow ticks contacts chats rows_of].
    + rewrite Ht in Hc. cbn [rows_of] in Hc.
      unfold table_insert. cbn [rows]. rewrite map_app. cbn [map snd].
      now apply stamped_snoc.
    + eapply stamped_mono; try eassumption; lia.
  - split; cbn [appdata utcnow ticks contacts chats rows_of].
    + eapply stamped_mono; try eassumption; lia.
    + rewrite Ht in Hm. cbn [rows_of] in Hm.
      unfold table_insert. cbn [rows]. rewrite map_app.
      cbn [map snd chat_created_at].
      apply stamped_mono with (n := S (ticks w)); [lia|].
      now apply stamped_snoc.
  - split; cbn [appdata utcnow ticks contacts chats rows_of].
    + eapply stamped_mono; try eassumption; lia.
    + rewrite Ht in Hm. cbn [rows_of] in Hm.
      rewrite table_insert_twice. cbn [rows]. rewrite map_app.
      cbn [map snd chat_created_at].
      change [utcnow w (ticks w); utcnow w (S (ticks w))]
        with ([utcnow w (ticks w)] ++ [utcnow w (S (ticks w))]).
      rewrite app_assoc. now do 2 apply stamped_snoc.
Qed.

Lemma chronological_startup (w : World) :
  chronological w -> chronological (snd (startup w)).
Proof.
  intros [Hc Hm]. rewrite startup_run. unfold chronological.
  cbn [snd appdata utcnow ticks contacts chats].
  now rewrite !rows_of_create.
Qed.

Lemma chronological_empty (w : World) :
  rows_of (contacts (appdata w)) = [] ->
  rows_of (chats (appdata w)) = [] ->
  chronological w.
Proof.
  intros Hc Hm. unfold chronological. rewrite Hc, Hm.
  split; apply stamped_nil.
Qed.

(** X10.  Rows are stamped in the order of the clock's readings.  If the
    stamps of both tables are readings of the clock taken in row order (as
    with empty tables), they still are after any request and after a
    restart.  So whenever later readings are not before earlier ones in
    some order, each table is sorted by [created_at] in that order. *)
Theorem timestamps_follow_the_clock (r : Request) (w : World) :
  chronological w ->
  chronological (snd (serve r w))
  /\ chronological (snd (startup w))
  /\ forall le : string -> string -> Prop,
       (forall i j, i < j -> le (utcnow w i) (utcnow w j)) ->
       StronglySorted le
         (map (fun row => contact_created_at (snd row))
              (rows_of (contacts (appdata (snd (serve r w))))))
       /\ StronglySorted le
            (map (fun row => chat_created_at (snd row))
                 (rows_of (chats (appdata (snd (serve r w)))))).
Proof.
  intros H.
  pose proof (chronological_effect r w _ _ (serve_effect r w) H) as Hs.
  split; [exact Hs|]. split; [now apply chronological_startup|].
  intros le Hle.
  assert (Hu : utcnow (snd (serve r w)) = utcnow w).
  { destruct (serve_effect r w); reflexivity. }
  destruct Hs as [Hc Hm]. rewrite Hu in Hc, Hm.
  split; eapply stamped_sorted; eassumption.
Qed.

Lemma timestamps_follow_the_clock_witness :
  chronological started
  /\ chronological
       (snd (serve (post "/chat_send" [("message", PyStr "hello")]) started)).
Proof.
  assert (H : chronological started)
    by (apply chronological_empty; reflexivity).
  split; [exact H|].
  exact (proj1 (timestamps_follow_the_clock
                  (post "/chat_send" [("message", PyStr "hello")])
                  started H)).
Defined.

(* ================================================================== *)
(** ** What the handlers read of a payload *)

Lemma submit_contact_reads (m : Method) (p : string) (d d' : dict)
  (w : World) :
  field_text d "name" = field_text d' "name" ->
  field_text d "email" = field_text d' "email" ->
  field_text d "message" = field_text d' "message" ->
  submit_contact (mkRequest m p (Some (PyDict d))) w =
  submit_contact (mkRequest m p (Some (PyDict d'))) w.
Proof.
  intros Hn He Hm. unfold submit_contact, try_except.
  change (get_json (mkRequest m p (Some (PyDict d)))) with (ret (PyDict d)).
  change (get_json (mkRequest m p (Some (PyDict d')))) with (ret (PyDict d')).
  rewrite !bind_ret.
  rewrite !read_field, Hn. destruct (field_text d' "name"); [|reflexivity].
  rewrite !read_field, He. destruct (field_text d' "email"); [|reflexivity].
  rewrite !read_field, Hm. reflexivity.
Qed.

Lemma chat_send_reads (m : Method) (p : string) (d d' : dict) (w : World) :
  field_text d "message" = field_text d' "message" ->
  chat_send (mkRequest m p (Some (PyDict d))) w =
  chat_send (mkRequest m p (Some (PyDict d'))) w.
Proof.
  intros Hm. unfold chat_send, try_except.
  change (get_json (mkRequest m p (Some (PyDict d)))) with (ret (PyDict d)).
  change (get_json (mkRequest m p (Some (PyDict d')))) with (ret (PyDict d')).
  rewrite !bind_ret.
  rewrite !read_field, Hm. reflexivity.
Qed.

Lemma field_text_other (d : dict) (k k' : string) (v : pyval) :
  k <> k' -> field_text (dict_set d k v) k' = field_text d k'.
Proof.
  intros H. unfold field_text, dict_set. cbn [dict_lookup].
  destruct (String.eqb k k') eqn:E; [|reflexivity].
  apply String.eqb_eq in E. contradiction.
Qed.

Lemma field_text_false (d : dict) (k k' : string) (v : pyval) :
  truthy v = false ->
  field_text (dict_set d k v) k' = field_text (dict_set d k (PyStr "")) k'.
Proof.
  intros H. unfold field_text, dict_set. cbn [dict_lookup].
  destruct (String.eqb k k'); [|reflexivity].
  unfold py_or. rewrite H. reflexivity.
Qed.

(** X11.  A field whose value is false in Python ([false], [0], [0.0], an
    empty string, list or object, as well as [null]) is read as the empty
    string: the request is served as with the field set to "".  So such a
    message is answered 400 "Empty message", and nothing is stored. *)
Theorem false_values_read_as_empty (d : dict) (k : string) (v : pyval)
  (w : World) :
  truthy v = false ->
  (forall p,
     serve (post p (dict_set d k v)) w =
     serve (post p (dict_set d k (PyStr ""))) w)
  /\ fst (serve (post "/chat_send" (dict_set d "message" v)) w) =
     Json 400 [("ok", PyBool false); ("error", PyStr "Empty message")]
  /\ appdata (snd (serve (post "/chat_send" (dict_set d "message" v)) w)) =
     appdata w.
Proof.
  intros H. split.
  - intros p. apply serve_fields. intros k'. now apply field_text_false.
  - unfold post. rewrite serve_chat_send, chat_send_dict.
    rewrite (field_text_false d "message" "message" v H).
    split; reflexivity.
Qed.

Lemma false_values_read_as_empty_witness :
  fst (serve (post "/chat_send" [("message", PyInt 0)]) started) =
    Json 400 [("ok", PyBool false); ("error", PyStr "Empty message")]
  /\ serve (post "/submit_contact"
              [("name", PyList []); ("email", PyStr "ada@example.org")])
       started
     = serve (post "/submit_contact"
                [("name", PyStr ""); ("email", PyStr "ada@example.org")])
         started.
Proof.
  split.
  - apply (proj1 (proj2 (false_values_read_as_empty [] "message" (PyInt 0)
                           started eq_refl))).
  - apply (proj1 (false_values_read_as_empty
                    [("email", PyStr "ada@example.org")] "name" (PyList [])
                    started eq_refl)).
Defined.

(** X12.  The handlers read nothing of a payload but their fields: two
    objects that agree on "message" are served alike by the chat handler,
    and two that agree on "name", "email" and "message" by the contact
    handler, with the same answer and the same rows.  So any other field is
    ignored, whatever its value. *)
Theorem only_the_read_fields_matter (d d' : dict) (w : World) :
  (field_text d "message" = field_text d' "message" ->
   serve (post "/chat_send" d) w = serve (post "/chat_send" d') w)
  /\ (field_text d "name" = field_text d' "name" ->
      field_text d "email" = field_text d' "email" ->
      field_text d "message" = field_text d' "message" ->
      serve (post "/submit_contact" d) w =
      serve (post "/submit_contact" d') w)
  /\ (forall k v,
        k <> "message" ->
        serve (post "/chat_send" (dict_set d k v)) w =
        serve (post "/chat_send" d) w)
  /\ (forall k v,
        k <> "name" -> k <> "email" -> k <> "message" ->
        serve (post "/submit_contact" (dict_set d k v)) w =
        serve (post "/submit_contact" d) w).
Proof.
  assert (Hchat : forall a b,
             field_text a "message" = field_text b "message" ->
             serve (post "/chat_send" a) w = serve (post "/chat_send" b) w).
  { intros a b H. unfold post. rewrite !serve_chat_send.
    now rewrite (chat_send_reads POST "/chat_send" a b _ H). }
  assert (Hcontact : forall a b,
             field_text a "name" = field_text b "name" ->
             field_text a "email" = field_text b "email" ->
             field_text a "message" = field_text b "message" ->
             serve (post "/submit_contact" a) w =
             serve (post "/submit_contact" b) w).
  { intros a b Hn He Hm. unfold post. rewrite !serve_submit_contact.
    now rewrite (submit_contact_reads POST "/submit_contact" a b _ Hn He Hm). }
  split; [apply Hchat|]. split; [apply Hcontact|]. split.
  - intros k v Hk. apply Hchat. now apply field_text_other.
  - intros k v Hn He Hm. apply Hcontact; now apply field_text_other.
Qed.

Lemma only_the_read_fields_matter_witness :
  serve (post "/chat_send" [("name", PyInt 5); ("message", PyStr "hello")])
    started
  = serve (post "/chat_send" [("message", PyStr "hello")]) started.
Proof.
  apply (proj1 (proj2 (proj2 (only_the_read_fields_matter
                                [("message", PyStr "hello")] [] started)))
           "name" (PyInt 5)).
  intros H. discriminate H.
Defined.

(* ================================================================== *)
(** ** The reply and the text around a keyword *)

Lemma ends_solid_cons (a : ascii) (k : string) :
  ends_solid (String a k) =
  match k with
  | EmptyString => negb (isspace a)
  | _ => ends_solid k
  end.
Proof. destruct k; reflexivity. Qed.

Lemma prefix_nil (k : string) : prefix k "" = is_empty k.
Proof. destruct k; reflexivity. Qed.

Lemma prefix_empty (s : string) : prefix "" s = true.
Proof. destruct s; reflexivity. Qed.

Lemma ends_solid_nonempty (k : string) :
  ends_solid k = true -> is_empty k = false.
Proof. destruct k; [discriminate | reflexivity]. Qed.

Lemma prefix_spaces (k ws : string) :
  ends_solid k = true -> all_space ws = true -> prefix k ws = false.
Proof.
  revert ws. induction k as [|a k IH]; intros ws Hk Hws; [discriminate Hk|].
  destruct ws as [|c ws]; [reflexivity|]. cbn [prefix].
  unfold all_space in Hws. cbn [list_ascii_of_string forallb] in Hws.
  apply andb_prop in Hws as [Hc Hws].
  destruct (ascii_dec a c) as [->|]; [|reflexivity].
  rewrite ends_solid_cons in Hk. destruct k as [|a' k].
  - rewrite Hc in Hk. discriminate Hk.
  - now apply IH.
Qed.

Lemma prefix_app_spaces (k z ws : string) :
  ends_solid k = true -> all_space ws = true ->
  prefix k (z ++ ws) = prefix k z.
Proof.
  revert k. induction z as [|c z IH]; intros k Hk Hws.
  - cbn [append]. rewrite prefix_nil, (ends_solid_nonempty k Hk).
    now apply prefix_spaces.
  - destruct k as [|a k]; [discriminate Hk|]. cbn [append prefix].
    destruct (ascii_dec a c); [|reflexivity].
    rewrite ends_solid_cons in Hk.
    destruct k as [|a' k]; [now rewrite !prefix_empty|].
    now apply IH.
Qed.

Lemma contains_spaces (k ws : string) :
  ends_solid k = true -> all_space ws = true -> contains k ws = false.
Proof.
  intros Hk. induction ws as [|c ws IH]; intros Hws;
    rewrite contains_unfold, (prefix_spaces k _ Hk Hws); [reflexivity|].
  unfold all_space in Hws. cbn [list_ascii_of_string forallb] in Hws.
  apply andb_prop in Hws as [_ Hws]. now apply IH.
Qed.

Lemma contains_app_spaces (k z ws : string) :
  ends_solid k = true -> all_space ws = true ->
  contains k (z ++ ws) = contains k z.
Proof.
  intros Hk Hws. induction z as [|c z IH].
  - cbn [append]. rewrite (contains_spaces k ws Hk Hws).
    rewrite contains_unfold, prefix_nil, (ends_solid_nonempty k Hk).
    reflexivity.
  - rewrite (contains_unfold k (String c z ++ ws)),
      (contains_unfold k (String c z)).
    rewrite (prefix_app_spaces k (String c z) ws Hk Hws).
    cbn [append]. now rewrite IH.
Qed.

(** What [rstrip] drops is whitespace at the end. *)
Lemma rstrip_decomp (s : string) :
  exists ws, s = (rstrip s ++ ws)%string /\ all_space ws = true.
Proof.
  induction s as [|c s (ws & Hs & Hws)]; [now exists ""|].
  rewrite rstrip_cons. destruct (rstrip s) as [|c' r] eqn:E.
  - cbn [append] in Hs. subst s. destruct (isspace c) eqn:Ec.
    + exists (String c ws). split; [reflexivity|].
      unfold all_space. cbn [list_ascii_of_string forallb].
      now rewrite Ec.
    + now exists ws.
  - exists ws. split; [|exact Hws]. cbn [append]. now rewrite Hs at 1.
Qed.

Lemma contains_rstrip (k s : string) :
  ends_solid k = true -> contains k (rstrip s) = contains k s.
Proof.
  intros Hk. destruct (rstrip_decomp s) as (ws & Hs & Hws).
  rewrite Hs at 2. symmetry. now apply contains_app_spaces.
Qed.

Lemma contains_lstrip (k s : string) :
  starts_solid k = true -> contains k (lstrip s) = contains k s.
Proof.
  intros Hk. induction s as [|c s IH]; [reflexivity|]. cbn [lstrip].
  destruct (isspace c) eqn:Ec; [|reflexivity].
  rewrite IH, (contains_unfold k (String c s)).
  destruct k as [|a k]; [discriminate Hk|]. cbn [prefix].
  destruct (ascii_dec a c) as [->|]; [|reflexivity].
  cbn [starts_solid] in Hk. rewrite Ec in Hk. discriminate Hk.
Qed.

(** Trimming removes no occurrence of a keyword. *)
Lemma contains_strip (k s : string) :
  starts_solid k = true -> ends_solid k = true ->
  contains k (strip s) = contains k s.
Proof.
  intros Hs He. unfold strip.
  now rewrite contains_rstrip, contains_lstrip.
Qed.

(** X13.  The reply does not depend on the whitespace around the message:
    the reply to the trimmed message, which [chat_send] returns, is the
    reply to the message as it was sent, since no keyword begins or ends
    with whitespace. *)
Theorem reply_ignores_surrounding_whitespace (s : string) :
  bot_reply (strip s) = bot_reply s
  /\ forall a b : string,
       all_space a = true -> all_space b = true ->
       bot_reply (a ++ s ++ b) = bot_reply s.
Proof.
  assert (H : forall x, bot_reply (strip x) = bot_reply x).
  { intros x. unfold bot_reply. cbn [existsb]. rewrite lower_strip.
    now rewrite !contains_strip by reflexivity. }
  split; [apply H|].
  intros a b Ha Hb. rewrite <- (H (a ++ s ++ b)%string), <- (H s).
  f_equal. unfold strip.
  assert (Hl : forall x y, all_space x = true ->
                           lstrip (x ++ y) = lstrip y).
  { induction x as [|c x IH]; intros y Hx; [reflexivity|].
    unfold all_space in Hx. cbn [list_ascii_of_string forallb] in Hx.
    apply andb_prop in Hx as [Hc Hx]. cbn [append lstrip]. rewrite Hc.
    now apply IH. }
  assert (Hr : forall y x, all_space x = true ->
                           rstrip (y ++ x) = rstrip y).
  { induction y as [|c y IH]; intros x Hx.
    - cbn [append]. apply rstrip_empty. exact Hx.
    - cbn [append]. rewrite !rstrip_cons. now rewrite IH. }
  rewrite Hl by exact Ha.
  destruct (lstrip_head s) as [E|(c & s' & E & Ec)].
  - assert (Hs : all_space s = true) by (apply strip_empty; unfold strip;
                                         now rewrite E).
    rewrite E. cbn [rstrip].
    assert (Hsb : all_space (s ++ b) = true).
    { unfold all_space in *. clear - Hs Hb.
      induction s as [|c s IH]; [exact Hb|].
      cbn [append list_ascii_of_string forallb] in *.
      apply andb_prop in Hs as [Hc Hs]. rewrite Hc. now apply IH. }
    apply strip_empty in Hsb. exact Hsb.
  - assert (Hsb : lstrip (s ++ b) = (lstrip s ++ b)%string).
    { clear - E. induction s as [|c0 s IH]; [discriminate E|].
      cbn [append lstrip] in *. destruct (isspace c0); [now apply IH|].
      reflexivity. }
    rewrite Hsb. now apply Hr.
Qed.

Lemma prefix_app_r (k m b : string) :
  prefix k m = true -> prefix k (m ++ b) = true.
Proof.
  revert m. induction k as [|a k IH]; intros m H; [apply prefix_empty|].
  destruct m as [|c m]; [discriminate H|]. cbn [append prefix] in *.
  destruct (ascii_dec a c); [now apply IH | discriminate H].
Qed.

Lemma contains_app_r (k m b : string) :
  contains k m = true -> contains k (m ++ b) = true.
Proof.
  induction m as [|c m IH]; intros H; rewrite contains_unfold in H.
  - rewrite orb_false_r in H. cbn [append]. rewrite contains_unfold.
    pose proof (prefix_app_r k "" b H) as P. cbn [append] in P.
    now rewrite P.
  - rewrite contains_unfold. apply orb_true_iff in H as [H|H].
    + now rewrite (prefix_app_r k _ b H).
    + cbn [append]. rewrite (IH H). apply orb_true_r.
Qed.

Lemma contains_app_l (k a m : string) :
  contains k m = true -> contains k (a ++ m) = true.
Proof.
  intros H. induction a as [|c a IH]; [exact H|].
  cbn [append]. rewrite contains_unfold, IH. apply orb_true_r.
Qed.

(** A keyword found in a part of a text is found in the text. *)
Lemma contains_inside (k a m b : string) :
  contains k m = true -> contains k (a ++ m ++ b) = true.
Proof. intros H. now apply contains_app_l, contains_app_r. Qed.

Lemma greeting_iff (m : string) :
  bot_reply m = greeting_reply <->
  existsb (fun greet => contains greet (lower m)) ["hi"; "hello"; "hey"]
  = true.
Proof.
  unfold bot_reply.
  destruct (existsb _ _); [split; reflexivity|].
  split; [|discriminate].
  repeat match goal with
         | |- context [if ?b then _ else _] => destruct b
         end; intros H; vm_compute in H; discriminate H.
Qed.

(** X14.  A greeting wins wherever it stands: if a message is greeted, so
    is every message that contains it, whatever is written before or after
    it (other keywords included); and a message is greeted exactly when
    "hi", "hello" or "hey" occurs in its lower-case text. *)
Theorem greeting_wins_anywhere (m : string) :
  (bot_reply m = greeting_reply <->
   contains "hi" (lower m) = true \/ contains "hello" (lower m) = true
   \/ contains "hey" (lower m) = true)
  /\ (bot_reply m = greeting_reply ->
      forall a b : string, bot_reply (a ++ m ++ b) = greeting_reply).
Proof.
  assert (Hiff : forall x,
             bot_reply x = greeting_reply <->
             contains "hi" (lower x) = true \/ contains "hello" (lower x) = true
             \/ contains "hey" (lower x) = true).
  { intros x. rewrite greeting_iff. cbn [existsb].
    rewrite orb_false_r, !orb_true_iff. tauto. }
  split; [apply Hiff|].
  intros H a b. apply Hiff. apply Hiff in H.
  rewrite !lower_app.
  destruct H as [H|[H|H]]; [left | right; left | right; right];
    now apply contains_inside.
Qed.

Lemma greeting_wins_anywhere_witness :
  bot_reply "what is your pricing? hey!" = greeting_reply.
Proof.
  apply (proj2 (greeting_wins_anywhere "hey") eq_refl
           "what is your pricing? " "!").
Defined.
